(** * blueprint-mongodb: resource controller and population

    A shallow embedding of [lib/ResourceController.js] (both revisions kept in
    the repository) and of [lib/populate/Population.js].

    JavaScript values are an inductive type, objects are ordered association
    lists (the order is the enumeration order of [Object.keys]), callbacks of
    the [async] library become an error monad that also records the effects a
    handler performs (hooks invoked, database commands, events, headers). *)

From Stdlib Require Import ZArith.
From stdpp Require Import base option list strings gmap.

Local Open Scope string_scope.
Local Open Scope Z_scope.
Local Open Scope list_scope.

(** ** JavaScript values *)

#[warnings="-register-all"]
Inductive JsValue : Type :=
| JUndefined
| JNull
| JBool (b : bool)
| JNum (n : Z)
| JNaN
| JStr (s : string)
| JArr (items : list JsValue)
| JObj (fields : list (string * JsValue)).

Abbreviation JsObject := (list (string * JsValue)).

(** [ToBoolean] of the language: what [if (x)] and [!x] look at. *)
Class ToBoolean (A : Type) := toBoolean : A -> bool.

#[export] Instance JsValue_ToBoolean : ToBoolean JsValue := fun v =>
  match v with
  | JUndefined | JNull | JNaN => false
  | JBool b => b
  | JNum n => negb (Z.eqb n 0)
  | JStr s => negb (String.eqb s "")
  | JArr _ | JObj _ => true
  end.

#[export] Instance bool_ToBoolean : ToBoolean bool := fun b => b.
#[export] Instance Z_ToBoolean : ToBoolean Z := fun n => negb (Z.eqb n 0).
#[export] Instance string_ToBoolean : ToBoolean string :=
  fun s => negb (String.eqb s "").
(** An array is an object, hence truthy even when empty. *)
#[export] Instance list_ToBoolean {A} : ToBoolean (list A) := fun _ => true.
(** [None] stands for [null]/[undefined]. *)
#[export] Instance option_ToBoolean {A} `{ToBoolean A} : ToBoolean (option A) :=
  fun o => match o with Some a => toBoolean a | None => false end.

(** [o[k]] on an object. *)
Fixpoint obj_get (k : string) (o : JsObject) : JsValue :=
  match o with
  | [] => JUndefined
  | (k', v) :: o' => if String.eqb k k' then v else obj_get k o'
  end.

(** [delete o[k]]. *)
Fixpoint obj_delete (k : string) (o : JsObject) : JsObject :=
  match o with
  | [] => []
  | (k', v) :: o' =>
      if String.eqb k k' then obj_delete k o' else (k', v) :: obj_delete k o'
  end.

(** [o[k] = v]: an existing key keeps its place, a new key goes last. This is
    the enumeration order of JavaScript for keys that are names; keys that
    are array indices (['0'], ['1'], ...) are enumerated before all others,
    in numeric order, which an association list built with [obj_set] does
    not show: what is stated below of the order of keys is stated of objects
    whose keys are names. *)
Fixpoint obj_set (k : string) (v : JsValue) (o : JsObject) : JsObject :=
  match o with
  | [] => [(k, v)]
  | (k', v') :: o' =>
      if String.eqb k k' then (k, v) :: o' else (k', v') :: obj_set k v o'
  end.

Definition Object_keys (o : JsObject) : list string := map fst o.

(** [v[k]] on any value: [None] is the [TypeError] raised on [undefined] and
    [null]. The indices and [length] of strings and arrays are not modelled:
    the keys looked up are field names of documents and of query objects. *)
Definition js_get (v : JsValue) (k : string) : option JsValue :=
  match v with
  | JUndefined | JNull => None
  | JObj o => Some (obj_get k o)
  | _ => Some JUndefined
  end.

(** [v === false || v === 0] *)
Definition is_false_or_zero (v : JsValue) : bool :=
  match v with
  | JBool false => true
  | JNum 0 => true
  | _ => false
  end.

(** ** Errors and the callback monad *)

Inductive Error : Type :=
| HttpError (status : Z) (message : string)
| JsError (e : JsValue)
| TypeError (what : string)
| ReferenceError (what : string).

(** A Mongoose document: its fields, and what [getLastModified ()] returns
    (milliseconds since the epoch). *)
Record Document := {
  doc_fields : JsObject;
  doc_lastModified : Z
}.

#[export] Instance Document_ToBoolean : ToBoolean Document := fun _ => true.

Record DbError := { db_message : string }.
#[export] Instance DbError_ToBoolean : ToBoolean DbError := fun _ => true.

Inductive HookName :=
| hAuthorize | hPrepareFilter | hPrepareProjection | hPrepareOptions
| hPrepareDocument | hPostExecute | hPopulate.

Inductive DbCommand : Type :=
| Create (model : string) (doc : JsValue)
| FindOne (filter projection : JsValue)
| Find (filter projection options : JsValue)
| FindOneAndUpdate (filter update options : JsValue)
| FindOneAndRemove (filter : JsValue)
| Count (filter : JsValue).

Inductive Effect : Type :=
| CallHook (h : HookName)
| CheckBody (allOptional : bool)
| DbCall (c : DbCommand)
| Emit (event : string) (payload : Document)
| SetHeader (name value : string).

(** A task of [async]: the effects it performed, and what it handed to its
    callback ([callback (err)] or [callback (null, a)]). *)
Definition M (A : Type) : Type := list Effect * (Error + A).

Definition ret {A} (a : A) : M A := ([], inr a).
Definition fail {A} (e : Error) : M A := ([], inl e).
Definition tell (e : Effect) : M unit := ([e], inr tt).
Definition lift {A} (r : Error + A) : M A := ([], r).

(** [async.waterfall]: the next task runs only when the previous one did not
    call back with an error, and receives its result. [async.series], and
    [async.parallel] over an object of tasks that call back at once, run
    their tasks the same way, in order, up to the first error. *)
Definition bind {A B} (m : M A) (f : A -> M B) : M B :=
  match m with
  | (l, inl e) => (l, inl e)
  | (l, inr a) => let '(l', r) := f a in (l ++ l', r)
  end.

Notation "'let*' x ':=' c1 'in' c2" := (bind c1 (fun x => c2))
  (at level 10, x name, c1 at level 100, c2 at level 200).
Notation "c1 ;;; c2" := (bind c1 (fun _ => c2))
  (at level 100, c2 at level 200, right associativity).

Definition effects {A} (m : M A) : list Effect := fst m.

(** Events emitted through [messaging.emit]. *)
Definition emitted (l : list Effect) : list (string * Document) :=
  omap (fun e => match e with Emit n p => Some (n, p) | _ => None end) l.

(** Headers set on the response, in order. *)
Definition headers_set (l : list Effect) : list (string * string) :=
  omap (fun e => match e with SetHeader n v => Some (n, v) | _ => None end) l.

(** The commands the controller itself sent to its model. The queries that
    [populate] of [lib/populate] makes are not among them: that function is
    not among the sources, and a call of it is recorded as one
    [CallHook hPopulate]. *)
Definition db_calls (l : list Effect) : list DbCommand :=
  omap (fun e => match e with DbCall c => Some c | _ => None end) l.

Definition hooks_called (l : list Effect) : list HookName :=
  omap (fun e => match e with CallHook h => Some h | _ => None end) l.

Definition body_checked (l : list Effect) : bool :=
  existsb (fun e => match e with CheckBody _ => true | _ => false end) l.

(** ** Helpers shared by both revisions of the controller *)

(** [isProjectionExclusive (projection)] *)
Definition isProjectionExclusive (projection : JsObject) : bool :=
  let keys := Object_keys projection in
  match keys with
  | [] => true
  | k0 :: _ => is_false_or_zero (obj_get k0 projection)
  end.

(** [makeDbCompletionHandler (errMsg, callback)] applied to [(err, result)]. *)
Definition makeDbCompletionHandler {E R} `{ToBoolean E} `{ToBoolean R}
    (errMsg : string) (err : E) (result : R) : Error + R :=
  if toBoolean err then inl (HttpError 400 errMsg)
  else if negb (toBoolean result) then inl (HttpError 404 "Not Found")
  else inr result.

(** ** Requests, responses and what the controller is built from *)

Record Request := {
  params : JsObject;
  query : JsObject;
  body : JsObject;
  headers : gmap string string
}.

Definition set_query (q : JsObject) (req : Request) : Request :=
  {| params := params req; query := q; body := body req;
     headers := headers req |}.

(** What a handler passes to [res.json]. *)
#[warnings="-register-all"]
Inductive Data : Type :=
| DDoc (d : Document)
| DDocs (l : list Document)
| DNum (n : Z)
| DBool (b : bool)
| DObj (fields : list (string * Data)).

Abbreviation Envelope := (list (string * Data)).

Fixpoint data_set (k : string) (v : Data) (o : Envelope) : Envelope :=
  match o with
  | [] => [(k, v)]
  | (k', v') :: o' =>
      if String.eqb k k' then (k, v) :: o' else (k', v') :: data_set k v o'
  end.

(** [_.extend (destination, source)]; an [undefined] source adds nothing. *)
Definition extend (dst : Envelope) (src : option Envelope) : Envelope :=
  match src with
  | None => dst
  | Some s => fold_left (fun acc kv => data_set (fst kv) (snd kv) acc) s dst
  end.

Inductive Outcome : Type :=
| Responded (status : Z) (json : Data)
| Failed (err : Error).

(** [makeTaskCompletionHandler (res, callback)] at the end of a waterfall. *)
Definition makeTaskCompletionHandler (m : M Data) : list Effect * Outcome :=
  match m with
  | (l, inl err) => (l, Failed err)
  | (l, inr r) => (l, Responded 200 r)
  end.

Module HttpHeader.
(** Modelled from the spec: [lib/HttpHeader.js] is not among the sources; the
    name is the one the spec gives for the response header. *)
Definition LAST_MODIFIED : string := "Last-Modified".
(** Modelled from the spec: [HttpHeader.lowercase.IF_MODIFIED_SINCE], the
    request header the spec names, in the lower case of [req.headers]. *)
Definition IF_MODIFIED_SINCE : string := "if-modified-since".
End HttpHeader.

(** The Mongoose model a controller is bound to. [discriminators] is
    [Model.discriminators]: absent, or a table from the value found under the
    discriminator key to the name of the model registered for it. *)
Record Model := {
  modelName : string;
  dbName : string;
  discriminatorKey : string;
  discriminators : option (JsValue -> option string)
}.

(** The fields of [this] the actions read. *)
Record Controller := {
  _model : Model;
  _name : string;
  _id : string;
  _pluralize : string;
  _eventPrefix : option string
}.

(** What the program takes from its platform and from files that are not
    among the sources: [Date.parse] ([None] is [NaN]),
    [Date.prototype.toUTCString], [DateUtils.compare], the schema validation
    of the framework ([req.checkBody (schema); req.validationErrors ()], by
    the schema built with or without [allOptional]) and the [populate]
    function of [lib/populate]. *)
Record Runtime := {
  Date_parse : string -> option Z;
  toUTCString : Z -> string;
  DateUtils_compare : option Z -> option Z -> Z;
  validationErrors : bool -> Request -> JsValue;
  populate : Data -> Model -> option Envelope
}.

(** The only thing the handlers rely on from [DateUtils.compare]: on two
    proper dates it answers [-1] exactly when the first is the earlier. *)
Definition compare_contract (rt : Runtime) : Prop :=
  forall a b : Z, DateUtils_compare rt (Some a) (Some b) = -1 <-> a < b.

(** [Date.parse ('')] is [NaN]. *)
Definition parse_contract (rt : Runtime) : Prop := Date_parse rt "" = None.

(** What the database answers to each command: the [(err, result)] pair the
    completion handler is called with. *)
Record Database := {
  Model_create : string -> JsValue -> option DbError * option Document;
  Model_findOne : JsValue -> JsValue -> option DbError * option Document;
  Model_find :
    JsValue -> JsValue -> JsValue -> option DbError * option (list Document);
  Model_findOneAndUpdate :
    JsValue -> JsValue -> JsValue -> option DbError * option Document;
  Model_findOneAndRemove : JsValue -> option DbError * option Document;
  Model_count : JsValue -> option DbError * option Z
}.

(** [opts.on]: the hooks a subclass may supply for an action whose database
    result has type [R]. A hook answers through its callback.
    [prepareOptions] is handed the options object of the action, and update
    goes on to use that very object, whatever the hook calls back with: so
    this hook answers with the object as it leaves it (the same fields when
    it only reads them) and with what it calls back with. *)
Record Hooks (R : Type) := {
  authorize : option (Request -> Error + unit);
  preCreate : option (Request -> JsValue -> Error + JsValue);
  prepareDocument : option (Request -> JsValue -> Error + JsValue);
  updateFilter : option (Request -> JsValue -> Error + JsValue);
  prepareFilter : option (Request -> JsValue -> Error + JsValue);
  prepareProjection : option (Request -> Error + JsValue);
  prepareOptions :
    option (Request -> JsObject -> JsObject * (Error + JsValue));
  postExecute : option (Request -> R -> Error + R)
}.
Arguments authorize {R}.
Arguments preCreate {R}.
Arguments prepareDocument {R}.
Arguments updateFilter {R}.
Arguments prepareFilter {R}.
Arguments prepareProjection {R}.
Arguments prepareOptions {R}.
Arguments postExecute {R}.

(** [opts = opts || {}; on = opts.on || {}] with nothing supplied. *)
Definition no_hooks {R} : Hooks R :=
  {| authorize := None; preCreate := None; prepareDocument := None;
     updateFilter := None; prepareFilter := None; prepareProjection := None;
     prepareOptions := None; postExecute := None |}.

(** [a || b] on an optional hook. *)
Definition or_else {A} (a : option A) (b : A) : A :=
  match a with Some x => x | None => b end.

(** Invoking a hook: the call is recorded, its answer is the task's. *)
Definition call {A} (h : HookName) (r : Error + A) : M A :=
  tell (CallHook h);;; lift r.

(** A database command: recorded, then answered through
    [makeDbCompletionHandler]. *)
Definition db_exec {R} `{ToBoolean R} (c : DbCommand) (errMsg : string)
    (reply : option DbError * option R) : M (option R) :=
  tell (DbCall c);;; lift (makeDbCompletionHandler errMsg (fst reply) (snd reply)).

(** Calling a method on the result: a [TypeError] when there is none. *)
Definition the {R} (r : option R) : M R :=
  match r with
  | Some x => ret x
  | None => fail (TypeError "Cannot read properties of null")
  end.

(** [v.k] where [v] is known to be an object or another truthy value. *)
Definition prop (v : JsValue) (k : string) : JsValue :=
  match js_get v k with Some x => x | None => JUndefined end.

(** [if (src.k) dst.k = src.k] *)
Definition copy_if_truthy (k : string) (src : JsValue) (dst : JsObject)
    : JsObject :=
  if toBoolean (prop src k) then obj_set k (prop src k) dst else dst.

(** [req.query.options || {}] *)
Definition query_options (req : Request) : JsValue :=
  let given := obj_get "options" (query req) in
  if toBoolean given then given else JObj [].

(** [if (req.query.options) delete req.query.options]: the request as the
    hooks of [getAll] see it. *)
Definition without_options (req : Request) : Request :=
  if toBoolean (obj_get "options" (query req))
  then set_query (obj_delete "options" (query req)) req
  else req.

(** ** The resource controller (current revision) *)

Definition __onAuthorize (req : Request) : Error + unit := inr tt.
Definition __onPrepareProjection (req : Request) : Error + JsValue :=
  inr (JObj []).
Definition __onPrepareOptions (req : Request) (options : JsObject)
    : JsObject * (Error + JsValue) := (options, inr (JObj [])).
Definition __onUpdateFilter (req : Request) (filter : JsValue)
    : Error + JsValue := inr filter.
Definition __onPrepareDocument (req : Request) (doc : JsValue)
    : Error + JsValue := inr doc.
Definition __onPostExecute {R} (req : Request) (result : R) : Error + R :=
  inr result.

(** [checkIdThenAuthorize (id, next)] *)
Definition checkIdThenAuthorize (id : string) (next : Request -> M unit)
    (req : Request) : M unit :=
  if negb (toBoolean (obj_get id (params req)))
  then fail (HttpError 400 "Missing resource id")
  else next req.

(** [ResourceController.prototype.computeEventName] *)
Definition computeEventName (self : Controller) (action : string) : string :=
  let prefix := or_else (_eventPrefix self) "" in
  let prefix :=
    if negb (Nat.eqb (String.length prefix) 0) then prefix +:+ "." else prefix in
  ((prefix +:+ _name self) +:+ ".") +:+ action.

Module ResourceController.
Section Actions.

Context (rt : Runtime) (db : Database) (self : Controller).

(** The schema check that opens the validation of [create] and [update]. *)
Definition check_body (allOptional : bool) (req : Request) : M unit :=
  tell (CheckBody allOptional);;;
  let errors := validationErrors rt allOptional req in
  if toBoolean errors then fail (JsError errors) else ret tt.

(** [resolveModel (Model, doc)] inside [create]; the model that results is
    the receiver of [create], so a missing one raises. *)
Definition resolveModel (m : Model) (doc : JsValue) : M string :=
  match discriminators m with
  | None => ret (modelName m)
  | Some table =>
      match js_get doc (discriminatorKey m) with
      | None => fail (TypeError "Cannot read properties of undefined")
      | Some discriminator =>
          if toBoolean discriminator
          then match table discriminator with
               | Some sub => ret sub
               | None => fail (TypeError "Cannot read properties of undefined")
               end
          else ret (modelName m)
      end
  end.

(** *** create *)

Definition create_validate (opts : Hooks Document) (req : Request) : M unit :=
  let onAuthorize := or_else (authorize opts) __onAuthorize in
  check_body false req;;;
  call hAuthorize (onAuthorize req).

Definition create_execute (opts : Hooks Document) (req : Request) : M Data :=
  let onPrepareDocument :=
    or_else (preCreate opts) (or_else (prepareDocument opts) __onPrepareDocument) in
  let onPostExecute := or_else (postExecute opts) __onPostExecute in
  let eventName := computeEventName self "created" in
  let doc := obj_get (_name self) (body req) in
  let* doc := call hPrepareDocument (onPrepareDocument req doc) in
  let* Model := resolveModel (_model self) doc in
  let* result := db_exec (Create Model doc) "Failed to create resource"
                   (Model_create db Model doc) in
  let* result := the result in
  tell (Emit eventName result);;;
  tell (SetHeader HttpHeader.LAST_MODIFIED
          (toUTCString rt (doc_lastModified result)));;;
  let* data := call hPostExecute (onPostExecute req result) in
  ret (DObj [(_name self, DDoc data)]).

Definition create (opts : Hooks Document) (req : Request)
    : list Effect * Outcome :=
  makeTaskCompletionHandler (create_execute opts req).

(** The last task of [get] and [getAll]: wrap, and extend with the populated
    documents when asked to. The error of [populate] is not looked at.
    [populate] reads the database on its own; of that only the call is
    recorded, and what it answers is taken from [Runtime]. *)
Definition wrap_and_populate (key : string) (data : Data) (wanted : JsValue)
    : M Data :=
  let result := [(key, data)] in
  if negb (toBoolean wanted) then ret (DObj result)
  else
    tell (CallHook hPopulate);;;
    ret (DObj (extend result (populate rt data (_model self)))).

(** *** get *)

Definition get_validate (opts : Hooks Document) : Request -> M unit :=
  let onAuthorize := or_else (authorize opts) __onAuthorize in
  checkIdThenAuthorize (_id self) (fun req => call hAuthorize (onAuthorize req)).

Definition get_execute (opts : Hooks Document) (req : Request) : M Data :=
  let onPrepareProjection :=
    or_else (prepareProjection opts) __onPrepareProjection in
  let onPrepareFilter :=
    or_else (updateFilter opts) (or_else (prepareFilter opts) __onUpdateFilter) in
  let onPostExecute := or_else (postExecute opts) __onPostExecute in
  let rcId := obj_get (_id self) (params req) in
  let filter := JObj [("_id", rcId)] in
  let* filter := call hPrepareFilter (onPrepareFilter req filter) in
  let* projection := call hPrepareProjection (onPrepareProjection req) in
  let* result := db_exec (FindOne filter projection)
                   "Failed to retrieve resource"
                   (Model_findOne db filter projection) in
  let* result := the result in
  let lastModified := doc_lastModified result in
  tell (SetHeader HttpHeader.LAST_MODIFIED (toUTCString rt lastModified));;;
  (match headers req !! HttpHeader.IF_MODIFIED_SINCE with
   | Some h =>
       if toBoolean h then
         let date := Date_parse rt h in
         if negb (DateUtils_compare rt date (Some lastModified) =? -1)
         then fail (HttpError 304 "Not Changed")
         else ret tt
       else ret tt
   | None => ret tt
   end);;;
  let* data := call hPostExecute (onPostExecute req result) in
  wrap_and_populate (_name self) (DDoc data) (obj_get "populate" (query req)).

Definition get (opts : Hooks Document) (req : Request)
    : list Effect * Outcome :=
  makeTaskCompletionHandler (get_execute opts req).

(** *** getAll *)

(** [processIfModifiedSince (data, callback)], [h] being the header. *)
Definition processIfModifiedSince (h : string) (data : list Document)
    : M (list Document) :=
  let date := Date_parse rt h in
  let result :=
    existsb (fun item =>
      DateUtils_compare rt date (Some (doc_lastModified item)) =? -1) data in
  if negb result then fail (HttpError 304 "Not Changed") else ret data.

(** [processHeaders (callback)]: the waterfall has the second task only when
    the request carries the header. *)
Definition processHeaders (req : Request) (result : list Document)
    : M (list Document) :=
  match headers req !! HttpHeader.IF_MODIFIED_SINCE with
  | Some h => if toBoolean h then processIfModifiedSince h result else ret result
  | None => ret result
  end.

(** The [async.reduce] of [setHeaders] over [data.slice (1)]. *)
Definition reduceLastModified (memo : Z) (items : list Document) : Z :=
  fold_left (fun memo item =>
    let lastModified := doc_lastModified item in
    if DateUtils_compare rt (Some memo) (Some lastModified) =? -1
    then lastModified else memo) items memo.

(** [setHeaders (data, callback)] *)
Definition setHeaders (data : list Document) : M (list Document) :=
  match data with
  | [] => ret data
  | first :: rest =>
      let lastModified :=
        match rest with
        | [] => doc_lastModified first
        | _ => reduceLastModified (doc_lastModified first) rest
        end in
      tell (SetHeader HttpHeader.LAST_MODIFIED (toUTCString rt lastModified));;;
      ret data
  end.

Definition getAll_validate (opts : Hooks (list Document)) (req : Request)
    : M unit :=
  call hAuthorize (or_else (authorize opts) __onAuthorize req).

Definition getAll_execute (opts : Hooks (list Document)) (req : Request)
    : M Data :=
  let onPrepareFilter :=
    or_else (updateFilter opts) (or_else (prepareFilter opts) __onUpdateFilter) in
  let onPrepareProjection :=
    or_else (prepareProjection opts) __onPrepareProjection in
  let onPrepareOptions := or_else (prepareOptions opts) __onPrepareOptions in
  let onPostExecute := or_else (postExecute opts) __onPostExecute in
  let opts_ := query_options req in
  let options : JsObject :=
    if toBoolean (obj_get "options" (query req))
    then copy_if_truthy "sort" opts_
           (copy_if_truthy "limit" opts_ (copy_if_truthy "skip" opts_ []))
    else [] in
  let req := without_options req in
  let* filter := call hPrepareFilter (onPrepareFilter req (JObj (query req))) in
  let* projection := call hPrepareProjection (onPrepareProjection req) in
  let* options := call hPrepareOptions (snd (onPrepareOptions req options)) in
  let* result := db_exec (Find filter projection options)
                   "Failed to retrieve resource"
                   (Model_find db filter projection options) in
  let* result := the result in
  let* data :=
    (if Nat.eqb (length result) 0 then ret result
     else let* data := processHeaders req result in setHeaders data) in
  let* data := call hPostExecute (onPostExecute req data) in
  wrap_and_populate (_pluralize self) (DDocs data) (prop opts_ "populate").

Definition getAll (opts : Hooks (list Document)) (req : Request)
    : list Effect * Outcome :=
  makeTaskCompletionHandler (getAll_execute opts req).

(** *** update *)

Definition update_validate (opts : Hooks Document) : Request -> M unit :=
  let onAuthorize := or_else (authorize opts) __onAuthorize in
  checkIdThenAuthorize (_id self) (fun req =>
    check_body true req;;;
    call hAuthorize (onAuthorize req)).

Definition update_execute (opts : Hooks Document) (req : Request) : M Data :=
  let onPrepareFilter :=
    or_else (updateFilter opts) (or_else (prepareFilter opts) __onUpdateFilter) in
  let onPostExecute := or_else (postExecute opts) __onPostExecute in
  let onPrepareOptions := or_else (prepareOptions opts) __onPrepareOptions in
  let onPrepareProjection :=
    or_else (prepareProjection opts) __onPrepareProjection in
  let eventName := computeEventName self "updated" in
  let rcId := obj_get (_id self) (params req) in
  let filter := JObj [("_id", rcId)] in
  let update := JObj [("$set", obj_get (_name self) (body req))] in
  let options : JsObject := [("upsert", JBool false); ("new", JBool true)] in
  let* filter := call hPrepareFilter (onPrepareFilter req filter) in
  let '(options, answer) := onPrepareOptions req options in
  let* _ := call hPrepareOptions answer in
  let* projection := call hPrepareProjection (onPrepareProjection req) in
  (* [options] is the object the hook was handed, not what it answered *)
  let options := obj_set "fields" projection options in
  let* result := db_exec (FindOneAndUpdate filter update (JObj options))
                   "Failed to update resource"
                   (Model_findOneAndUpdate db filter update (JObj options)) in
  let* result := the result in
  tell (Emit eventName result);;;
  tell (SetHeader HttpHeader.LAST_MODIFIED
          (toUTCString rt (doc_lastModified result)));;;
  let* data := call hPostExecute (onPostExecute req result) in
  ret (DObj [(_name self, DDoc data)]).

Definition update (opts : Hooks Document) (req : Request)
    : list Effect * Outcome :=
  makeTaskCompletionHandler (update_execute opts req).

(** *** delete *)

Definition delete_validate (opts : Hooks Document) : Request -> M unit :=
  let onAuthorize := or_else (authorize opts) __onAuthorize in
  checkIdThenAuthorize (_id self) (fun req => call hAuthorize (onAuthorize req)).

Definition delete_execute (opts : Hooks Document) (req : Request) : M Data :=
  let onPrepareFilter :=
    or_else (updateFilter opts) (or_else (prepareFilter opts) __onUpdateFilter) in
  let onPostExecute := or_else (postExecute opts) __onPostExecute in
  let eventName := computeEventName self "deleted" in
  let rcId := obj_get (_id self) (params req) in
  let filter := JObj [("_id", rcId)] in
  let* filter := call hPrepareFilter (onPrepareFilter req filter) in
  let* result := db_exec (FindOneAndRemove filter) "Failed to delete resource"
                   (Model_findOneAndRemove db filter) in
  let* result := the result in
  tell (Emit eventName result);;;
  let* _ := call hPostExecute (onPostExecute req result) in
  ret (DBool true).

Definition delete (opts : Hooks Document) (req : Request)
    : list Effect * Outcome :=
  makeTaskCompletionHandler (delete_execute opts req).

(** *** count *)

Definition count_validate (opts : Hooks Z) (req : Request) : M unit :=
  call hAuthorize (or_else (authorize opts) __onAuthorize req).

Definition count_execute (opts : Hooks Z) (req : Request) : M Data :=
  let onPrepareFilter :=
    or_else (updateFilter opts) (or_else (prepareFilter opts) __onUpdateFilter) in
  let onPostExecute := or_else (postExecute opts) __onPostExecute in
  let* filter := call hPrepareFilter (onPrepareFilter req (JObj (query req))) in
  let* count := db_exec (Count filter) "Failed to count resources"
                  (Model_count db filter) in
  let* count := the count in
  let* count := call hPostExecute (onPostExecute req count) in
  ret (DObj [("count", DNum count)]).

Definition count (opts : Hooks Z) (req : Request) : list Effect * Outcome :=
  makeTaskCompletionHandler (count_execute opts req).

End Actions.
End ResourceController.

(** ** The resource controller (earlier revision)

    The revision of the file without conditional requests. Only the two
    actions whose query construction differs are embedded; [self.name] is
    the [_name] field of [Controller]. Unlike the current revision, this one
    does not require [winston], which every action names when it is given
    [on.updateFilter]. *)

Module Legacy.

(** [opts.on] of this revision: [prepareOptions] takes no options, and the
    projection is an object the action writes [__v] into. *)
Record Hooks (R : Type) := {
  authorize : option (Request -> Error + unit);
  updateFilter : option (Request -> JsValue -> Error + JsValue);
  prepareFilter : option (Request -> JsValue -> Error + JsValue);
  prepareProjection : option (Request -> Error + JsObject);
  prepareOptions : option (Request -> Error + option JsObject);
  postExecute : option (Request -> R -> Error + R)
}.
Arguments authorize {R}.
Arguments updateFilter {R}.
Arguments prepareFilter {R}.
Arguments prepareProjection {R}.
Arguments prepareOptions {R}.
Arguments postExecute {R}.

Definition no_hooks {R} : Hooks R :=
  {| authorize := None; updateFilter := None; prepareFilter := None;
     prepareProjection := None; prepareOptions := None; postExecute := None |}.

Definition __onPrepareProjection (req : Request) : Error + JsObject := inr [].
Definition __onPrepareOptions (req : Request) : Error + option JsObject :=
  inr (Some []).

(** [projection['__v'] === undefined] *)
Definition is_undefined (v : JsValue) : bool :=
  match v with JUndefined => true | _ => false end.

(** [if (on.updateFilter) winston.log ('warn', ...)], the first statement of
    every action. This revision never requires [winston]: with
    [on.updateFilter] building the action raises a [ReferenceError], and no
    handler of it exists that could run. A request to such an action is
    given that error and no effect. *)
Definition warn_deprecated {R A} (opts : Hooks R) (handler : M A) : M A :=
  match updateFilter opts with
  | Some _ => fail (ReferenceError "winston is not defined")
  | None => handler
  end.

Section Actions.

Context (rt : Runtime) (db : Database) (self : Controller).

Definition getAll_execute (opts : Hooks (list Document)) (req : Request)
    : M Data :=
  warn_deprecated opts (
  let onUpdateFilter :=
    or_else (updateFilter opts) (or_else (prepareFilter opts) __onUpdateFilter) in
  let onPrepareProjection :=
    or_else (prepareProjection opts) __onPrepareProjection in
  let onPrepareOptions := or_else (prepareOptions opts) __onPrepareOptions in
  let onPostExecute := or_else (postExecute opts) __onPostExecute in
  let opts_ := query_options req in
  let* filter :=
    call hPrepareFilter
      (onUpdateFilter req (JObj (obj_delete "options" (query req)))) in
  let* options := call hPrepareOptions (onPrepareOptions req) in
  let options := match options with Some o => o | None => [] end in
  let options :=
    copy_if_truthy "sort" opts_
      (copy_if_truthy "limit" opts_ (copy_if_truthy "skip" opts_ options)) in
  let* projection := call hPrepareProjection (onPrepareProjection req) in
  let projection :=
    if isProjectionExclusive projection
    then obj_set "__v" (JNum 0) projection else projection in
  let* result := db_exec (Find filter (JObj projection) (JObj options))
                   "Failed to retrieve resource"
                   (Model_find db filter (JObj projection) (JObj options)) in
  let* result := the result in
  let* data := call hPostExecute (onPostExecute req result) in
  let result := [(_pluralize self, DDocs data)] in
  if negb (toBoolean (prop opts_ "populate")) then ret (DObj result)
  else
    tell (CallHook hPopulate);;;
    ret (DObj (extend result (populate rt (DDocs data) (_model self))))).

Definition getAll (opts : Hooks (list Document)) (req : Request)
    : list Effect * Outcome :=
  makeTaskCompletionHandler (getAll_execute opts req).

Definition update_execute (opts : Hooks Document) (req : Request) : M Data :=
  warn_deprecated opts (
  let onUpdateFilter :=
    or_else (updateFilter opts) (or_else (prepareFilter opts) __onUpdateFilter) in
  let onPostExecute := or_else (postExecute opts) __onPostExecute in
  let onPrepareProjection :=
    or_else (prepareProjection opts) __onPrepareProjection in
  let eventName := computeEventName self "updated" in
  let rcId := obj_get (_id self) (params req) in
  let filter := JObj [("_id", rcId)] in
  let* filter := call hPrepareFilter (onUpdateFilter req filter) in
  let update := JObj [("$set", obj_get (_name self) (body req))] in
  let option : JsObject := [("upsert", JBool false); ("new", JBool true)] in
  tell (CallHook hPrepareProjection);;;
  (* the callback does not look at [err]: without a projection,
     [Object.keys (undefined)] raises *)
  let* projection :=
    match onPrepareProjection req with
    | inr projection => ret projection
    | inl _ => fail (TypeError "Cannot convert undefined to object")
    end in
  let fields :=
    if isProjectionExclusive projection
       && is_undefined (obj_get "__v" projection)
    then obj_set "__v" (JNum 0) projection else projection in
  let option := obj_set "fields" (JObj fields) option in
  let* result := db_exec (FindOneAndUpdate filter update (JObj option))
                   "Failed to update resource"
                   (Model_findOneAndUpdate db filter update (JObj option)) in
  let* result := the result in
  tell (Emit eventName result);;;
  let* data := call hPostExecute (onPostExecute req result) in
  ret (DObj [(_name self, DDoc data)])).

Definition update (opts : Hooks Document) (req : Request)
    : list Effect * Outcome :=
  makeTaskCompletionHandler (update_execute opts req).

End Actions.
End Legacy.

(** ** Population ([lib/populate/Population.js]) *)

Module Population.

(** [populate.accept (visitor)] calls one of the two methods of the visitor
    that [_populate] passes: the populate object is for a single reference
    or for an array of references. *)
Inductive Accept := visitPopulateElement | visitPopulateArray.

(** A populate object of [lib/populate]: its [Model], the visitor method its
    [accept] calls, and what [populate (ids, callback)] calls back with. The
    callback is taken to run before [populate] returns, so that the paths of
    a populator are gone through one after the other; with a query that
    answers later, the calls and the answers of different paths come in
    another order. What is stated of a [Population] as an invariant
    ([consistent]) does not speak of that order. *)
Record Populate := {
  populate_Model : Model;
  populate_accept : Accept;
  populate_populate : JsValue -> Error + JsValue
}.

(** A populator: a populate object for each path, in enumeration order. *)
Abbreviation Populator := (list (string * Populate)).

(** One call of [populate.populate]: the collection, the ids asked for, and
    the answer. *)
Record Fetch := {
  fetch_plural : string;
  fetch_ids : list JsValue;
  fetch_answer : Error + JsValue
}.

(** The mutable fields of a [Population]. [fetches] is not a field of the
    object: it records the calls of [populate.populate] made so far. *)
Record Population := {
  _ids : gmap string (list string);
  population : gmap string (list JsValue);
  fetches : list Fetch
}.

(** [new Population (populators)] *)
Definition new_Population : Population :=
  {| _ids := ∅; population := ∅; fetches := [] |}.

(** [Population.getKeyFromModel] *)
Definition getKeyFromModel (model : Model) : string :=
  dbName model +:+ ":" +:+ modelName model.

(** How a call ended: its callback got nothing, or an error, or an
    exception escaped from it before any callback; [OutOfFuel] marks a run
    cut short by the bound on the depth of the recursion. *)
Inductive Status := Done | Raised (e : Error) | Thrown (e : Error) | OutOfFuel.

Definition both (s1 s2 : Status) : Status :=
  match s1, s2 with
  | OutOfFuel, _ | _, OutOfFuel => OutOfFuel
  | _, Thrown e => Thrown e
  | Done, s => s
  | Raised e, _ => Raised e
  | Thrown e, _ => Thrown e
  end.

(** [Array.prototype.indexOf] on an array of strings. *)
Fixpoint indexOf (coll : list string) (s : string) : Z :=
  match coll with
  | [] => -1
  | x :: rest =>
      if String.eqb x s then 0
      else let i := indexOf rest s in if i =? -1 then -1 else i + 1
  end.

(** [async.eachOf] over an object whose iteratee calls back at once: the
    entries are visited in order and the first error, or an exception, ends
    the iteration. *)
Fixpoint eachOf {A S} (coll : list A) (iteratee : A -> S -> S * Status)
    (st : S) : S * Status :=
  match coll with
  | [] => (st, Done)
  | x :: rest =>
      match iteratee x st with
      | (st', Done) => eachOf rest iteratee st'
      | r => r
      end
  end.

(** [async.each] over an array: the loop visits every element, also after
    an iteratee called back with an error, and the callback gets the first
    error; an exception leaves the loop. *)
Fixpoint each {A S} (arr : list A) (iteratee : A -> S -> S * Status)
    (st : S) : S * Status :=
  match arr with
  | [] => (st, Done)
  | x :: rest =>
      match iteratee x st with
      | (st', Thrown e) => (st', Thrown e)
      | (st', s1) =>
          let '(st'', s2) := each rest iteratee st' in
          (st'', both s1 s2)
      end
  end.

(** What [async.filter] iterates over: the elements of an array, the values
    of an object, the characters of a string, nothing otherwise. *)
Definition collection_items (v : JsValue) : list JsValue :=
  match v with
  | JArr items => items
  | JObj fields => map snd fields
  | JStr s => map (fun c => JStr (String c EmptyString)) (String.list_ascii_of_string s)
  | _ => []
  end.

Section Populate.

(** [pluralize] of the npm package, [toString] of the ids, and the
    [_populators] the object was built with. *)
Context (pluralize : string -> string) (toString : JsValue -> string)
        (_populators : gmap string Populator).

(** [id.toString ()] on an element of an array of references: [null] and
    [undefined] have no method to call. *)
Definition toString_of (id : JsValue) : Error + string :=
  match id with
  | JNull | JUndefined =>
      inl (TypeError "Cannot read properties of null")
  | _ => inr (toString id)
  end.

Definition ids_of (st : Population) (plural : string) : list string :=
  default [] (_ids st !! plural).

Definition population_of (st : Population) (plural : string) : list JsValue :=
  default [] (population st !! plural).

(** [if (!this.population[plural]) this.population[plural] = [];
     if (!this._ids[plural]) this._ids[plural] = [];] *)
Definition ensure (plural : string) (st : Population) : Population :=
  {| _ids := match _ids st !! plural with
             | Some _ => _ids st
             | None => <[plural := []]> (_ids st)
             end;
     population := match population st !! plural with
                   | Some _ => population st
                   | None => <[plural := []]> (population st)
                   end;
     fetches := fetches st |}.

(** [coll.push (idStr)] on [this._ids[plural]] *)
Definition push_id (plural idStr : string) (st : Population) : Population :=
  {| _ids := <[plural := ids_of st plural ++ [idStr]]> (_ids st);
     population := population st;
     fetches := fetches st |}.

(** [this.population[plural].push (model)] *)
Definition push_model (plural : string) (model : JsValue) (st : Population)
    : Population :=
  {| _ids := _ids st;
     population := <[plural := population_of st plural ++ [model]]> (population st);
     fetches := fetches st |}.

Definition record_fetch (f : Fetch) (st : Population) : Population :=
  {| _ids := _ids st; population := population st;
     fetches := fetches st ++ [f] |}.

(** The [async.filter] of [visitPopulateArray]: the ids seen for the first
    time, each pushed on [this._ids[plural]] as it is met. An element without
    [toString] raises where it is met: the ids before it stay pushed, and
    the filter has no result. *)
Fixpoint filter_firstTime (plural : string) (value : list JsValue)
    (st : Population) : (Error + list JsValue) * Population :=
  match value with
  | [] => (inr [], st)
  | id :: rest =>
      match toString_of id with
      | inl e => (inl e, st)
      | inr idStr =>
          let firstTime := indexOf (ids_of st plural) idStr =? -1 in
          let st := if firstTime then push_id plural idStr st else st in
          let '(result, st) := filter_firstTime plural rest st in
          (match result with
           | inl e => inl e
           | inr result => inr (if firstTime then id :: result else result)
           end, st)
      end
  end.

(** The first task of the waterfall: the ids to search for, [None] for
    [null], or the exception that escaped. The second component of the ids
    is the list of ids they stand for. [value] is truthy, so that
    [value.toString ()] is a call. *)
Definition remaining_ids (populate : Populate) (value : JsValue)
    (plural : string) (st : Population)
    : (Error + option (JsValue * list JsValue)) * Population :=
  match populate_accept populate with
  | visitPopulateElement =>
      let idStr := toString value in
      let coll := ids_of st plural in
      if negb (indexOf coll idStr =? -1) then (inr None, st)
      else (inr (Some (value, [value])), push_id plural idStr st)
  | visitPopulateArray =>
      let '(result, st) :=
        filter_firstTime plural (collection_items value) st in
      (match result with
       | inl e => inl e
       | inr result =>
           inr (if (0 <? Z.of_nat (length result))
                then Some (JArr result, result) else None)
       end, st)
  end.

(** [populateElement (key, model, callback)], with [_populate] passed in. *)
Definition populateElement_with
    (rec : Populator -> JsValue -> Population -> Population * Status)
    (key : string) (model : JsValue) (st : Population) : Population * Status :=
  match _populators !! key with
  | None => (st, Done)
  | Some populator => rec populator model st
  end.

(** [populateArray (key, arr, callback)], with [_populate] passed in. *)
Definition populateArray_with
    (rec : Populator -> JsValue -> Population -> Population * Status)
    (key : string) (arr : list JsValue) (st : Population)
    : Population * Status :=
  match _populators !! key with
  | None => (st, Done)
  | Some populator => each arr (fun model => rec populator model) st
  end.

(** [_populate (populator, data, callback)]. The recursion goes through the
    documents the database answers with, so it is bounded by [fuel]. *)
Fixpoint _populate (fuel : nat) (populator : Populator) (data : JsValue)
    (st : Population) : Population * Status :=
  match fuel with
  | O => (st, OutOfFuel)
  | S fuel =>
      if negb (toBoolean data) then (st, Done)
      else
        eachOf populator (fun entry st =>
          let '(path, populate) := entry in
          let value := prop data path in
          if negb (toBoolean value) then (st, Done)
          else
            let plural := pluralize (modelName (populate_Model populate)) in
            let st := ensure plural st in
            let '(remaining, st) := remaining_ids populate value plural st in
            match remaining with
            | inl e => (st, Thrown e)
            | inr None => (st, Done)
            | inr (Some (remaining, ids)) =>
                let answer := populate_populate populate remaining in
                let st := record_fetch
                            {| fetch_plural := plural; fetch_ids := ids;
                               fetch_answer := answer |} st in
                match answer with
                | inl err => (st, Raised err)
                | inr model =>
                    let st := push_model plural model st in
                    let key := getKeyFromModel (populate_Model populate) in
                    match model with
                    | JArr arr =>
                        populateArray_with (_populate fuel) key arr st
                    | _ => populateElement_with (_populate fuel) key model st
                    end
                end
            end) st
  end.

Definition populateElement (fuel : nat) :=
  populateElement_with (_populate fuel).

Definition populateArray (fuel : nat) :=
  populateArray_with (_populate fuel).

(** The id strings handed to [populate.populate] for a collection, in the
    order of the calls. *)
Definition requested (st : Population) (plural : string) : list string :=
  concat (map (fun f =>
    if String.eqb (fetch_plural f) plural then map toString (fetch_ids f)
    else []) (fetches st)).

(** The models the database answered with for a collection. *)
Definition answered (st : Population) (plural : string) : list JsValue :=
  concat (map (fun f =>
    if String.eqb (fetch_plural f) plural
    then match fetch_answer f with inr model => [model] | inl _ => [] end
    else []) (fetches st)).

(** What holds of a [Population] at every moment: no id string occurs twice
    under a collection, none was handed twice to [populate.populate] for it,
    every one that was handed to it is among those known, and the models
    kept for a collection are the answers to those calls, each once. *)
Definition consistent (st : Population) : Prop :=
  forall plural : string,
    NoDup (ids_of st plural) /\
    NoDup (requested st plural) /\
    (forall idStr, In idStr (requested st plural) ->
       In idStr (ids_of st plural)) /\
    population_of st plural ≡ₚ answered st plural.

End Populate.
End Population.

(** ** Properties of the controller *)

(** What the database answers to a recorded command. *)
Definition db_err (db : Database) (c : DbCommand) : option DbError :=
  match c with
  | Create m d => fst (Model_create db m d)
  | FindOne f p => fst (Model_findOne db f p)
  | Find f p o => fst (Model_find db f p o)
  | FindOneAndUpdate f u o => fst (Model_findOneAndUpdate db f u o)
  | FindOneAndRemove f => fst (Model_findOneAndRemove db f)
  | Count f => fst (Model_count db f)
  end.

(** [!result] on the result the database answers with. *)
Definition db_result_falsy (db : Database) (c : DbCommand) : bool :=
  match c with
  | Create m d => negb (toBoolean (snd (Model_create db m d)))
  | FindOne f p => negb (toBoolean (snd (Model_findOne db f p)))
  | Find f p o => negb (toBoolean (snd (Model_find db f p o)))
  | FindOneAndUpdate f u o =>
      negb (toBoolean (snd (Model_findOneAndUpdate db f u o)))
  | FindOneAndRemove f => negb (toBoolean (snd (Model_findOneAndRemove db f)))
  | Count f => negb (toBoolean (snd (Model_count db f)))
  end.

(** The result is [null] or [undefined]. *)
Definition db_result_absent (db : Database) (c : DbCommand) : bool :=
  match c with
  | Create m d => bool_decide (snd (Model_create db m d) = None)
  | FindOne f p => bool_decide (snd (Model_findOne db f p) = None)
  | Find f p o => bool_decide (snd (Model_find db f p o) = None)
  | FindOneAndUpdate f u o =>
      bool_decide (snd (Model_findOneAndUpdate db f u o) = None)
  | FindOneAndRemove f => bool_decide (snd (Model_findOneAndRemove db f) = None)
  | Count f => bool_decide (snd (Model_count db f) = None)
  end.

(** The database call failed or found nothing: the completion handler called
    back with an error. *)
Definition db_unsuccessful (db : Database) (c : DbCommand) : bool :=
  toBoolean (db_err db c) || db_result_falsy db c.

(** What the completion handler turns the answer to [c] into, if an error. *)
Definition db_failure (db : Database) (errMsg : string) (c : DbCommand)
    : option Error :=
  if toBoolean (db_err db c) then Some (HttpError 400 errMsg)
  else if db_result_falsy db c then Some (HttpError 404 "Not Found")
  else None.

(** The six actions that go to the database, what each hands to
    [makeDbCompletionHandler] as its message, and the event it announces. *)
Inductive Action := aCreate | aGet | aGetAll | aUpdate | aDelete | aCount.

Definition result_type (a : Action) : Type :=
  match a with
  | aGetAll => list Document
  | aCount => Z
  | _ => Document
  end.

Definition run (rt : Runtime) (db : Database) (self : Controller) (a : Action)
    : Hooks (result_type a) -> Request -> list Effect * Outcome :=
  match a as a0
    return Hooks (result_type a0) -> Request -> list Effect * Outcome with
  | aCreate => ResourceController.create rt db self
  | aGet => ResourceController.get rt db self
  | aGetAll => ResourceController.getAll rt db self
  | aUpdate => ResourceController.update rt db self
  | aDelete => ResourceController.delete db self
  | aCount => ResourceController.count db
  end.

Definition errMsg (a : Action) : string :=
  match a with
  | aCreate => "Failed to create resource"
  | aGet | aGetAll => "Failed to retrieve resource"
  | aUpdate => "Failed to update resource"
  | aDelete => "Failed to delete resource"
  | aCount => "Failed to count resources"
  end.

Definition event_of (a : Action) : option string :=
  match a with
  | aCreate => Some "created"
  | aUpdate => Some "updated"
  | aDelete => Some "deleted"
  | _ => None
  end.

(** The document the database answers with, for the commands that answer
    with one. *)
Definition db_document (db : Database) (c : DbCommand) : option Document :=
  match c with
  | Create m d => snd (Model_create db m d)
  | FindOne f p => snd (Model_findOne db f p)
  | FindOneAndUpdate f u o => snd (Model_findOneAndUpdate db f u o)
  | FindOneAndRemove f => snd (Model_findOneAndRemove db f)
  | Find _ _ _ | Count _ => None
  end.

(** ** A concrete controller, database and requests *)

Module Sample.

Definition compare (d1 d2 : option Z) : Z :=
  match d1, d2 with
  | Some n1, Some n2 => if n1 <? n2 then -1 else if n2 <? n1 then 1 else 0
  | _, _ => 0
  end.

Definition parse (s : string) : option Z :=
  if String.eqb s "Thu, 01 Jan 1970 00:00:20 GMT" then Some 20000 else None.

Definition utc (t : Z) : string :=
  if t =? 10000 then "Thu, 01 Jan 1970 00:00:10 GMT"
  else if t =? 30000 then "Thu, 01 Jan 1970 00:00:30 GMT"
  else "Thu, 01 Jan 1970 00:00:00 GMT".

Definition rt : Runtime :=
  {| Date_parse := parse; toUTCString := utc; DateUtils_compare := compare;
     validationErrors := fun _ _ => JBool false;
     populate := fun _ _ => None |}.

Definition user : Model :=
  {| modelName := "user"; dbName := "$default"; discriminatorKey := "__t";
     discriminators := None |}.

Definition self : Controller :=
  {| _model := user; _name := "user"; _id := "userId"; _pluralize := "users";
     _eventPrefix := None |}.

Definition alice : Document :=
  {| doc_fields := [("_id", JStr "a1"); ("name", JStr "alice")];
     doc_lastModified := 10000 |}.

Definition bob : Document :=
  {| doc_fields := [("_id", JStr "b2"); ("name", JStr "bob")];
     doc_lastModified := 30000 |}.

(** A collection that holds [alice] only. *)
Definition has_alice_id (filter : JsValue) : bool :=
  match prop filter "_id" with
  | JStr s => String.eqb s "a1"
  | _ => false
  end.

Definition db : Database :=
  {| Model_create := fun _ _ => (None, Some alice);
     Model_findOne := fun f _ =>
       if has_alice_id f then (None, Some alice) else (None, None);
     Model_find := fun _ _ _ => (None, Some [alice]);
     Model_findOneAndUpdate := fun f _ _ =>
       if has_alice_id f then (None, Some alice) else (None, None);
     Model_findOneAndRemove := fun f =>
       if has_alice_id f then (None, Some alice) else (None, None);
     Model_count := fun _ => (None, Some 1) |}.

(** A collection nothing matches in. *)
Definition empty_db : Database :=
  {| Model_create := fun _ _ => (None, None);
     Model_findOne := fun _ _ => (None, None);
     Model_find := fun _ _ _ => (None, Some []);
     Model_findOneAndUpdate := fun _ _ _ => (None, None);
     Model_findOneAndRemove := fun _ => (None, None);
     Model_count := fun _ => (None, Some 0) |}.

(** A database that answers every command with an error. *)
Definition down : option DbError := Some {| db_message := "connection lost" |}.
Definition failing_db : Database :=
  {| Model_create := fun _ _ => (down, None);
     Model_findOne := fun _ _ => (down, None);
     Model_find := fun _ _ _ => (down, None);
     Model_findOneAndUpdate := fun _ _ _ => (down, None);
     Model_findOneAndRemove := fun _ => (down, None);
     Model_count := fun _ => (down, None) |}.

(** A collection with [alice] and the more recent [bob]. *)
Definition two_db : Database :=
  {| Model_create := fun _ _ => (None, Some alice);
     Model_findOne := fun _ _ => (None, Some alice);
     Model_find := fun _ _ _ => (None, Some [alice; bob]);
     Model_findOneAndUpdate := fun _ _ _ => (None, Some alice);
     Model_findOneAndRemove := fun _ => (None, Some alice);
     Model_count := fun _ => (None, Some 2) |}.

Definition request (p q b : JsObject) (h : gmap string string) : Request :=
  {| params := p; query := q; body := b; headers := h |}.

(** [GET /users/a1] *)
Definition get_alice : Request := request [("userId", JStr "a1")] [] [] ∅.

(** The same with [If-Modified-Since], ten seconds after [alice] changed. *)
Definition get_alice_since : Request :=
  request [("userId", JStr "a1")] [] []
    {[ HttpHeader.IF_MODIFIED_SINCE := "Thu, 01 Jan 1970 00:00:20 GMT" ]}.

(** [GET /users/] with no resource id in the route. *)
Definition get_nobody : Request := request [] [] [] ∅.

(** [GET /users?options[skip]=5&options[limit]=10&name=alice] *)
Definition list_page : Request :=
  request []
    [("options", JObj [("skip", JNum 5); ("limit", JNum 10)]);
     ("name", JStr "alice")] [] ∅.

(** [GET /users] with [If-Modified-Since]. *)
Definition list_since : Request :=
  request [] [] []
    {[ HttpHeader.IF_MODIFIED_SINCE := "Thu, 01 Jan 1970 00:00:20 GMT" ]}.

(** [PUT /users/a1] *)
Definition put_alice : Request :=
  request [("userId", JStr "a1")] []
    [("user", JObj [("name", JStr "alice")])] ∅.

(** [prepareOptions: function (req, options, callback) {
       options.upsert = true; callback (null, options); }] *)
Definition upserting : Hooks Document :=
  {| authorize := None; preCreate := None; prepareDocument := None;
     updateFilter := None; prepareFilter := None; prepareProjection := None;
     prepareOptions := Some (fun _ options =>
       let options := obj_set "upsert" (JBool true) options in
       (options, inr (JObj options)));
     postExecute := None |}.

(** [PUT /users/z9], an id no document has. *)
Definition put_nobody : Request :=
  request [("userId", JStr "z9")] []
    [("user", JObj [("name", JStr "zoe")])] ∅.

(** A user document refers to its friends and to its best friend. *)
Definition id_toString (id : JsValue) : string :=
  match id with JStr s => s | _ => "" end.

Definition plural_s (name : string) : string := name +:+ "s".

Definition user_of (id : JsValue) : JsValue :=
  JObj [("_id", id); ("friends", JArr [JStr "u1"; id])].

Definition friends : Population.Populate :=
  {| Population.populate_Model := user;
     Population.populate_accept := Population.visitPopulateArray;
     Population.populate_populate := fun ids =>
       inr (JArr (map user_of (Population.collection_items ids))) |}.

Definition best : Population.Populate :=
  {| Population.populate_Model := user;
     Population.populate_accept := Population.visitPopulateElement;
     Population.populate_populate := fun id => inr (user_of id) |}.

Definition user_populator : Population.Populator :=
  [("friends", friends); ("best", best)].

Definition populators : gmap string Population.Populator :=
  {[ "$default:user" := user_populator ]}.

(** [u1] is named twice among the friends, [u3] is both friend and best
    friend, and every user fetched names [u1] and itself again. *)
Definition carol : JsValue :=
  JObj [("_id", JStr "u0");
        ("friends", JArr [JStr "u1"; JStr "u1"; JStr "u3"]);
        ("best", JStr "u3")].

Definition populated : Population.Population :=
  fst (Population._populate plural_s id_toString populators 4 user_populator
         carol Population.new_Population).

(** A document with a hole among its friends. *)
Definition dave : JsValue :=
  JObj [("_id", JStr "u9");
        ("friends", JArr [JStr "u1"; JNull; JStr "u3"])].

End Sample.

(** ** Reasoning about tasks

    [wp m Q]: the effects and the callback argument of [m] satisfy [Q]. *)

Definition wp {A} (m : M A) (Q : list Effect -> Error + A -> Prop) : Prop :=
  Q (fst m) (snd m).


(** ** Validation schemas ([lib/validators/Number.js],
       [lib/ValidationSchema.js]) *)

(** A schema type of the ORM, as the validators read it. *)
Record SchemaType := {
  isRequired : JsValue;
  options : JsValue;
  instance : string
}.

(** What a validator throws: [new Error (message)], or the [TypeError] of a
    property read on [undefined]. *)
Inductive Raised : Type :=
| RaisedError (message : string)
| RaisedTypeError (what : string).

(** [o.hasOwnProperty (k)] *)
Definition obj_has (k : string) (o : JsObject) : bool :=
  existsb (fun kv => String.eqb k (fst kv)) o.

(** [_.extend (destination, source)] on plain objects. *)
Definition obj_extend (dst src : JsObject) : JsObject :=
  fold_left (fun acc kv => obj_set (fst kv) (snd kv) acc) src dst.

(** [objectPath.has (obj, key)] for a single key: an own property, whatever
    its value. *)
Definition objectPath_has (obj : JsValue) (key : string) : bool :=
  match obj with
  | JObj o => obj_has key o
  | _ => false
  end.

(** One step of [objectPath.get]: the own property, [None] when [obj] is
    [null]/[undefined] or the property is [undefined]. *)
Definition shallow_get (obj : JsValue) (key : string) : option JsValue :=
  match obj with
  | JObj o =>
      match obj_get key o with
      | JUndefined => None
      | v => Some v
      end
  | _ => None
  end.

(** [objectPath.get (obj, 'k1.k2', defaultValue)] *)
Definition objectPath_get2 (obj : JsValue) (k1 k2 : string)
    (defaultValue : JsValue) : JsValue :=
  match shallow_get obj k1 with
  | None => defaultValue
  | Some next =>
      match shallow_get next k2 with
      | None => defaultValue
      | Some v => v
      end
  end.

Module NumberValidator.

Definition kinds : list string := ["Decimal"; "Float"; "Int"; "Numeric"].

(** [kinds.indexOf (kind)]: only a string is strictly equal to a string. *)
Definition indexOf_kind (kind : JsValue) : Z :=
  match kind with
  | JStr s => Population.indexOf kinds s
  | _ => -1
  end.

Section Number.

(** What the platform makes of a value that is not a string when it is
    formatted with [%s]. *)
Context (format : JsValue -> string).

(** [util.format ('%s', v)] and ['is' + v]: a string stands for itself. *)
Definition string_of (v : JsValue) : string :=
  match v with
  | JStr s => s
  | _ => format v
  end.

(** The exported function. *)
Definition Number (path : SchemaType) : Raised + JsObject :=
  let schema : JsObject := [] in
  match js_get (options path) "validation" with
  | None => inl (RaisedTypeError "Cannot read properties of undefined")
  | Some validation =>
      if toBoolean validation then
        let kind := prop validation "kind" in
        if toBoolean kind then
          if indexOf_kind kind =? -1
          then inl (RaisedError ("Invalid number kind: " +:+ string_of kind))
          else
            let isKind := "is" +:+ string_of kind in
            let entry : JsObject :=
              [("errorMessage",
                JStr ("Invalid/missing " +:+ string_of kind))] in
            let entry :=
              if toBoolean (prop validation "options")
              then obj_set "options" (prop validation "options") entry
              else entry in
            inr (obj_set isKind (JObj entry) schema)
        else inr schema
      else inr schema
  end.

End Number.
End NumberValidator.

Module ValidationSchema.

(** [opts] of [makeValidationSchema]. *)
Record Opts := {
  pathPrefix : option string;
  allOptional : JsValue
}.

Section Make.

(** [require ('./validators')]: the validator registered for an instance
    name, if any. *)
Context (instances : string -> option (SchemaType -> Raised + JsObject)).

(** [makeValidationForSchemaType (schemaType, opts)], [allOptional_] being
    [opts.allOptional]. *)
Definition makeValidationForSchemaType (schemaType : SchemaType)
    (allOptional_ : JsValue) : Raised + JsObject :=
  let schema : JsObject := [] in
  let allOptional := toBoolean allOptional_ in
  let hasDefault := objectPath_has (options schemaType) "default" in
  let validationOptional :=
    toBoolean (objectPath_get2 (options schemaType) "validation" "optional"
                 (JBool false)) in
  let schema :=
    if negb (toBoolean (isRequired schemaType)) || hasDefault
       || validationOptional || allOptional
    then obj_set "optional" (JBool true) schema
    else if toBoolean (isRequired schemaType)
            && negb (hasDefault || allOptional)
    then obj_set "notEmpty" (JBool true) schema
    else schema in
  match instances (instance schemaType) with
  | Some instanceValidator =>
      match instanceValidator schemaType with
      | inl e => inl e
      | inr instanceSchema => inr (obj_extend schema instanceSchema)
      end
  | None => inr schema
  end.

(** The callback of [schema.eachPath], over the paths in order. *)
Fixpoint eachPath (pathPrefix : string) (allOptional_ : JsValue)
    (paths : list (string * SchemaType)) (validation : JsObject)
    : Raised + JsObject :=
  match paths with
  | [] => inr validation
  | (path, schemaType) :: rest =>
      let fullKey := pathPrefix +:+ path in
      match makeValidationForSchemaType schemaType allOptional_ with
      | inl e => inl e
      | inr s => eachPath pathPrefix allOptional_ rest
                   (obj_set fullKey (JObj s) validation)
      end
  end.

(** [makeValidationSchema (schema, opts)], the schema given by its paths. *)
Definition makeValidationSchema (schema : list (string * SchemaType))
    (opts : Opts) : Raised + JsObject :=
  let pathPrefix :=
    match pathPrefix opts with
    | Some p => if toBoolean p then p +:+ "." else ""
    | None => ""
    end in
  eachPath pathPrefix (allOptional opts) schema [].

(** [this._createValidation] and [this._updateValidation] of a controller
    named [name]. *)
Definition createValidation (name : string)
    (schema : list (string * SchemaType)) : Raised + JsObject :=
  makeValidationSchema schema
    {| pathPrefix := Some name; allOptional := JUndefined |}.

Definition updateValidation (name : string)
    (schema : list (string * SchemaType)) : Raised + JsObject :=
  makeValidationSchema schema
    {| pathPrefix := Some name; allOptional := JBool true |}.

End Make.
End ValidationSchema.

(** A schema with a required name, an age that is an integer in a range,
    and a score with a default. *)
Module SampleSchema.

Definition format (v : JsValue) : string :=
  match v with
  | JNum _ => "<number>"
  | JBool true => "true"
  | JBool false => "false"
  | _ => "[object Object]"
  end.

Definition instances (name : string)
    : option (SchemaType -> Raised + JsObject) :=
  if String.eqb name "Number" then Some (NumberValidator.Number format)
  else None.

Definition name_type : SchemaType :=
  {| isRequired := JBool true; options := JObj [("required", JBool true)];
     instance := "String" |}.

Definition age_validation : JsValue :=
  JObj [("kind", JStr "Int"); ("options", JObj [("min", JNum 0)])].

Definition age_type : SchemaType :=
  {| isRequired := JBool true;
     options := JObj [("required", JBool true); ("validation", age_validation)];
     instance := "Number" |}.

Definition score_type : SchemaType :=
  {| isRequired := JBool true;
     options := JObj [("required", JBool true); ("default", JNum 0)];
     instance := "Number" |}.

(** A number whose kind is none of the four. *)
Definition ratio_type : SchemaType :=
  {| isRequired := JUndefined;
     options := JObj [("validation", JObj [("kind", JStr "Double")])];
     instance := "Number" |}.

Definition person : list (string * SchemaType) :=
  [("name", name_type); ("age", age_type); ("score", score_type)].

End SampleSchema.

(** ** More of [Population] *)

(** The elements of a value once nested arrays are opened, to any depth. *)
Fixpoint flatten_value (v : JsValue) : list JsValue :=
  match v with
  | JArr items =>
      (fix each (l : list JsValue) : list JsValue :=
         match l with
         | [] => []
         | x :: rest => flatten_value x ++ each rest
         end) items
  | _ => [v]
  end.

(** [_.flatten (array)] *)
Definition _flatten (array : list JsValue) : list JsValue :=
  flatten_value (JArr array).

(** [Population.prototype.flatten]: what the callback receives. *)
Definition Population_flatten (st : Population.Population)
    : gmap string (list JsValue) :=
  _flatten <$> Population.population st.

Definition is_array (v : JsValue) : bool :=
  match v with JArr _ => true | _ => false end.

(** What a model pushed on [population] holds when it is a document or an
    array of documents. *)
Definition documents_of (model : JsValue) : list JsValue :=
  match model with
  | JArr items => items
  | doc => [doc]
  end.

(** [st'] holds everything [st] holds, in the same order, and possibly
    more after it. *)
Definition grows (st st' : Population.Population) : Prop :=
  Population.fetches st `prefix_of` Population.fetches st' /\
  forall plural : string,
    Population.ids_of st plural `prefix_of` Population.ids_of st' plural /\
    Population.population_of st plural
      `prefix_of` Population.population_of st' plural.

(** The ids a populate object reads off a value. *)
Definition ids_in (populate : Population.Populate) (value : JsValue)
    : list JsValue :=
  match Population.populate_accept populate with
  | Population.visitPopulateElement => [value]
  | Population.visitPopulateArray => Population.collection_items value
  end.

(** Whether the visitor can take the string of an id: the array visitor
    cannot of [null] and [undefined]. *)
Definition has_string (populate : Population.Populate) (id : JsValue) : bool :=
  match Population.populate_accept populate, id with
  | Population.visitPopulateArray, (JNull | JUndefined) => false
  | _, _ => true
  end.

(** Every id a populator reads off [data] has a string, and that string is
    already known to [st]. *)
Definition covered (pluralize : string -> string)
    (toString : JsValue -> string) (populator : Population.Populator)
    (data : JsValue) (st : Population.Population) : Prop :=
  forall path populate,
    In (path, populate) populator ->
    toBoolean (prop data path) = true ->
    forall id, In id (ids_in populate (prop data path)) ->
      has_string populate id = true /\
      In (toString id)
         (Population.ids_of st
            (pluralize (modelName (Population.populate_Model populate)))).

(** No call of [populate.populate] made so far was for an empty list. *)
Definition asks_for_something (st : Population.Population) : Prop :=
  Forall (fun f => Population.fetch_ids f <> []) (Population.fetches st).

(** Two states that hold the same ids, models and calls. *)
Definition same_contents (st st' : Population.Population) : Prop :=
  Population.fetches st' = Population.fetches st /\
  forall plural : string,
    Population.ids_of st' plural = Population.ids_of st plural /\
    Population.population_of st' plural = Population.population_of st plural.

(** ** [getFirst] of the earlier revision *)

Module LegacyGetFirst.
Section Actions.

Context (db : Database) (self : Controller).

(** The waterfall of [getFirst.execute]; on success its result, the object
    [{ [name]: first[0] }] given as its one entry ([None] is [undefined]), is
    answered with status 200. The query
    [find (filter).select ({__v: 0}).limit (1)], sorted when [options.sort]
    is truthy, is recorded as the [find] with that projection and those
    options. *)
Definition getFirst_execute (opts : Legacy.Hooks (list Document))
    (req : Request) : M (string * option Document) :=
  Legacy.warn_deprecated opts (
  let onUpdateFilter :=
    or_else (Legacy.updateFilter opts)
      (or_else (Legacy.prepareFilter opts) __onUpdateFilter) in
  let onPostExecute := or_else (Legacy.postExecute opts) __onPostExecute in
  let* filter := call hPrepareFilter (onUpdateFilter req (JObj (query req))) in
  let options := obj_get "options" (query req) in
  let filter :=
    if toBoolean options then JObj (obj_delete "options" (query req))
    else filter in
  let options := if toBoolean options then options else JObj [] in
  let projection := JObj [("__v", JNum 0)] in
  let query_options :=
    JObj (copy_if_truthy "sort" options [("limit", JNum 1)]) in
  let* first := db_exec (Find filter projection query_options)
                  "Failed to count resources"
                  (Model_find db filter projection query_options) in
  let* first := the first in
  let* first := call hPostExecute (onPostExecute req first) in
  ret (_name self, head first)).

End Actions.
End LegacyGetFirst.

(** A model with discriminators, and requests that create documents of
    it. *)
Module SampleShapes.

Definition table (discriminator : JsValue) : option string :=
  match discriminator with
  | JStr s => if String.eqb s "circle" then Some "Circle" else None
  | _ => None
  end.

Definition shape : Model :=
  {| modelName := "shape"; dbName := "$default"; discriminatorKey := "kind";
     discriminators := Some table |}.

Definition self : Controller :=
  {| _model := shape; _name := "shape"; _id := "shapeId";
     _pluralize := "shapes"; _eventPrefix := None |}.

(** [POST /shapes] with a circle, and with a kind nobody registered. *)
Definition post_circle : Request :=
  Sample.request [] []
    [("shape", JObj [("kind", JStr "circle"); ("radius", JNum 2)])] ∅.

Definition post_blob : Request :=
  Sample.request [] []
    [("shape", JObj [("kind", JStr "blob")])] ∅.

End SampleShapes.

(** * Proofs *)

(** *** Reasoning about tasks *)

Lemma wp_bind {A B} (m : M A) (f : A -> M B) Q :
  wp m (fun l r =>
    match r with
    | inl e => Q l (inl e)
    | inr a => wp (f a) (fun l' r' => Q (l ++ l') r')
    end) ->
  wp (bind m f) Q.
Proof.
  unfold wp, bind. destruct m as [l [e|a]]; cbn; [done|].
  by destruct (f a).
Qed.

Lemma wp_ret {A} (a : A) (Q : list Effect -> Error + A -> Prop) :
  Q [] (inr a) -> wp (ret a) Q.
Proof. done. Qed.

Lemma wp_fail {A} (e : Error) (Q : list Effect -> Error + A -> Prop) :
  Q [] (inl e) -> wp (fail e) Q.
Proof. done. Qed.

Lemma wp_tell (e : Effect) (Q : list Effect -> Error + unit -> Prop) :
  Q [e] (inr tt) -> wp (tell e) Q.
Proof. done. Qed.

Lemma wp_call {A} (h : HookName) (r : Error + A) Q :
  Q [CallHook h] r -> wp (call h r) Q.
Proof. done. Qed.

Lemma wp_db_exec {R} `{ToBoolean R} (c : DbCommand) (errMsg : string)
    (reply : option DbError * option R) Q :
  Q [DbCall c] (makeDbCompletionHandler errMsg (fst reply) (snd reply)) ->
  wp (db_exec c errMsg reply) Q.
Proof. done. Qed.

Lemma wp_the {R} (r : option R) (Q : list Effect -> Error + R -> Prop) :
  match r with
  | Some x => Q [] (inr x)
  | None => Q [] (inl (TypeError "Cannot read properties of null"))
  end ->
  wp (the r) Q.
Proof. by destruct r. Qed.

Lemma wp_outcome (m : M Data) (Q : list Effect -> Outcome -> Prop) :
  wp m (fun l r =>
    Q l match r with inl e => Failed e | inr d => Responded 200 d end) ->
  Q (fst (makeTaskCompletionHandler m)) (snd (makeTaskCompletionHandler m)).
Proof. unfold wp. by destruct m as [l [e|d]]. Qed.

Lemma wp_outcome_of (m : M Data) (P : list Effect * Outcome -> Prop) :
  wp m (fun l r =>
    P (l, match r with inl e => Failed e | inr d => Responded 200 d end)) ->
  P (makeTaskCompletionHandler m).
Proof. unfold wp. by destruct m as [l [e|d]]. Qed.

Ltac by_wp :=
  match goal with
  | |- context [makeTaskCompletionHandler ?m] =>
      pattern (makeTaskCompletionHandler m); apply wp_outcome_of
  end; cbv beta.

Ltac wp_step :=
  lazymatch goal with
  | |- wp (bind _ _) _ => apply wp_bind
  | |- wp (call _ _) _ => apply wp_call
  | |- wp (db_exec _ _ _) _ => apply wp_db_exec
  | |- wp (ret _) _ => apply wp_ret
  | |- wp (fail _) _ => apply wp_fail
  | |- wp (tell _) _ => apply wp_tell
  | |- wp (the _) _ => apply wp_the
  | |- wp (if ?b then _ else _) _ => destruct b eqn:?
  | |- wp (match ?x with _ => _ end) _ => destruct x eqn:?
  | |- match ?x with _ => _ end => destruct x eqn:?
  end; cbn beta iota.

Ltac wp_run := repeat wp_step.

(** The completion handler and [db_failure] say the same. *)
Lemma makeDbCompletionHandler_inl {R} `{ToBoolean R} errMsg
    (err : option DbError) (result : option R) e :
  makeDbCompletionHandler errMsg err result = inl e <->
  (if toBoolean err then Some (HttpError 400 errMsg)
   else if negb (toBoolean result) then Some (HttpError 404 "Not Found")
   else None) = Some e.
Proof.
  unfold makeDbCompletionHandler.
  destruct (toBoolean err), (negb (toBoolean result)); cbn;
    (split; intros; congruence).
Qed.

Lemma makeDbCompletionHandler_inr {R} `{ToBoolean R} errMsg
    (err : option DbError) (result : option R) r :
  makeDbCompletionHandler errMsg err result = inr r <->
  toBoolean err = false /\ toBoolean result = true /\ r = result.
Proof.
  unfold makeDbCompletionHandler.
  destruct (toBoolean err), (toBoolean result); cbn;
    (split; [intros; repeat split; congruence | intros (? & ? & ?); congruence]).
Qed.

(** Reading a field of an object that was written to. *)
Lemma obj_get_set_eq (k : string) (v : JsValue) (o : JsObject) :
  obj_get k (obj_set k v o) = v.
Proof.
  induction o as [|[k0 v0] o IH]; cbn.
  - by rewrite String.eqb_refl.
  - destruct (String.eqb k k0) eqn:E; cbn; [by rewrite String.eqb_refl|].
    by rewrite E.
Qed.

Lemma obj_get_set_ne (k k' : string) (v : JsValue) (o : JsObject) :
  k <> k' -> obj_get k (obj_set k' v o) = obj_get k o.
Proof.
  intros Hne. induction o as [|[k0 v0] o IH]; cbn.
  - by destruct (String.eqb_spec k k').
  - destruct (String.eqb_spec k' k0) as [->|Hne']; cbn.
    + by destruct (String.eqb_spec k k0).
    + by rewrite IH.
Qed.

Section Properties.

Context (rt : Runtime) (db : Database) (self : Controller).

Import ResourceController.

Ltac unfold_actions :=
  unfold run, create, get, getAll, update, delete, count;
  unfold create_execute, get_execute, getAll_execute, update_execute,
    delete_execute, count_execute, wrap_and_populate, resolveModel,
    processHeaders, processIfModifiedSince, setHeaders;
  cbv zeta.

Ltac use_handler :=
  repeat match goal with
  | H : makeDbCompletionHandler _ _ _ = inl _ |- _ =>
      apply makeDbCompletionHandler_inl in H
  | H : makeDbCompletionHandler _ _ _ = inr _ |- _ =>
      apply makeDbCompletionHandler_inr in H; destruct H as (? & ? & ?)
  end.

Ltac the_call c :=
  let H := fresh in
  intros H; cbn in H;
  repeat (destruct H as [H|H]; [subst c|]); try contradiction.

Lemma db_failure_outcome (a : Action) (opts : Hooks (result_type a))
    (req : Request) (c : DbCommand) (e : Error) :
  In c (db_calls (fst (run rt db self a opts req))) ->
  db_failure db (errMsg a) c = Some e ->
  snd (run rt db self a opts req) = Failed e.
Proof.
  destruct a; unfold_actions;
    apply (wp_outcome _ (fun l o => In c (db_calls l) -> _ -> o = Failed e));
    wp_run; the_call c; use_handler;
    unfold db_failure, db_result_falsy; cbn;
    (let Hf := fresh in
     intros Hf; cbn in *; try congruence;
     repeat match goal with
     | H : toBoolean _ = _ |- _ => rewrite H in Hf
     end; cbn in *; congruence).
Qed.

(** What [makeDbCompletionHandler] does, whatever was meant: it calls back
    with an error in exactly two cases: a truthy [err] gives [HttpError (400, errMsg)], and a
    falsy [err] with a falsy [result] (so [null] and [undefined], but also a
    count of [0]) gives [HttpError (404, 'Not Found')]. For each of create,
    get, getAll, update, delete and count, a run that reached the database
    fails with the 400 carrying the message of the action in the first
    case, and with the 404 in the second. *)
Theorem db_completion_errors :
  (forall (E R : Type) (TE : ToBoolean E) (TR : ToBoolean R)
          (errMsg : string) (err : E) (result : R) e,
     makeDbCompletionHandler errMsg err result = inl e <->
     (toBoolean err = true /\ e = HttpError 400 errMsg) \/
     (toBoolean err = false /\ toBoolean result = false /\
      e = HttpError 404 "Not Found")) /\
  (forall (a : Action) (opts : Hooks (result_type a)) (req : Request)
          (c : DbCommand),
     In c (db_calls (fst (run rt db self a opts req))) ->
     (toBoolean (db_err db c) = true ->
      snd (run rt db self a opts req) = Failed (HttpError 400 (errMsg a))) /\
     (toBoolean (db_err db c) = false -> db_result_falsy db c = true ->
      snd (run rt db self a opts req) = Failed (HttpError 404 "Not Found")) /\
     (db_result_absent db c = true -> db_result_falsy db c = true)).
Proof.
  split.
  - intros E R TE TR errMsg err result e. unfold makeDbCompletionHandler.
    destruct (toBoolean err), (toBoolean result); cbn;
      split; intros; intuition congruence.
  - intros a opts req c Hc. repeat split.
    + intros He. apply (db_failure_outcome a opts req c); [done|].
      unfold db_failure. by rewrite He.
    + intros He Hr. apply (db_failure_outcome a opts req c); [done|].
      unfold db_failure. by rewrite He, Hr.
    + unfold db_result_absent, db_result_falsy.
      destruct c; intros ->%bool_decide_eq_true; reflexivity.
Qed.

(** C5. In get, update and delete, a request whose [params] hold a falsy
    value under the resource-id key fails validation with
    [HttpError (400, 'Missing resource id')] before anything else happens: no
    hook is invoked and the body is not checked. With an id, validation is
    the next step: the authorize hook, preceded in update by the check of
    the body. *)
Theorem missing_resource_id (opts : Hooks Document) (req : Request) :
  (toBoolean (obj_get (_id self) (params req)) = false ->
   get_validate self opts req
     = ([], inl (HttpError 400 "Missing resource id")) /\
   update_validate rt self opts req
     = ([], inl (HttpError 400 "Missing resource id")) /\
   delete_validate self opts req
     = ([], inl (HttpError 400 "Missing resource id")) /\
   hooks_called (effects (update_validate rt self opts req)) = [] /\
   body_checked (effects (update_validate rt self opts req)) = false) /\
  (toBoolean (obj_get (_id self) (params req)) = true ->
   get_validate self opts req
     = call hAuthorize (or_else (authorize opts) __onAuthorize req) /\
   update_validate rt self opts req
     = (check_body rt true req;;;
        call hAuthorize (or_else (authorize opts) __onAuthorize req)) /\
   delete_validate self opts req
     = call hAuthorize (or_else (authorize opts) __onAuthorize req)).
Proof.
  unfold get_validate, update_validate, delete_validate, checkIdThenAuthorize.
  split; intros ->; cbn; repeat split; reflexivity.
Qed.

Lemma computeEventName_eq (action : string) :
  computeEventName self action =
  match _eventPrefix self with
  | Some (String c p) =>
      (((String c p +:+ ".") +:+ _name self) +:+ ".") +:+ action
  | _ => (_name self +:+ ".") +:+ action
  end.
Proof.
  unfold computeEventName. by destruct (_eventPrefix self) as [[|c p]|].
Qed.

Lemma falsy_error (err : option DbError) : toBoolean err = false -> err = None.
Proof. by destruct err. Qed.

(** A run of create, update or delete that is answered went to the database
    once, got a document without an error, and announced that document. *)
Lemma event_on_success (a : Action) (action : string)
    (opts : Hooks (result_type a)) (req : Request) (status : Z) (json : Data) :
  event_of a = Some action ->
  snd (run rt db self a opts req) = Responded status json ->
  exists c doc,
    db_calls (fst (run rt db self a opts req)) = [c] /\
    db_err db c = None /\ db_document db c = Some doc /\
    emitted (fst (run rt db self a opts req))
    = [(computeEventName self action, doc)].
Proof.
  intros Ha.
  destruct a; try discriminate Ha; injection Ha as <-; unfold_actions;
    apply (wp_outcome _ (fun l o =>
      o = Responded status json ->
      exists c doc, db_calls l = [c] /\ db_err db c = None /\
        db_document db c = Some doc /\ emitted l = [(_, doc)]));
    wp_run; cbn; intros Hr; try discriminate Hr; use_handler; subst;
    match goal with
    | H : Some ?d = _ |- _ =>
        eexists _, d; split; [reflexivity|];
        split; [cbn; by apply falsy_error|];
        split; [cbn; by symmetry|reflexivity]
    end.
Qed.

(** C6. Every run of create, update and delete that is answered announced
    exactly one event: it went to the database once, the database answered
    with a document and no error, and that document is the payload. The
    event is named [eventPrefix + '.' + name + '.' + action] when
    [eventPrefix] is a non-empty string and [name + '.' + action] otherwise,
    [action] being ['created'], ['updated'] or ['deleted']. The event is
    announced as soon as the database has answered with the document, also
    when [postExecute] then fails; a run whose database call failed or found
    nothing, or that never reached the database, announces nothing. *)
Theorem events_emitted (a : Action) (action : string)
    (opts : Hooks (result_type a)) (req : Request) :
  event_of a = Some action ->
  computeEventName self action =
    match _eventPrefix self with
    | Some (String c p) =>
        (((String c p +:+ ".") +:+ _name self) +:+ ".") +:+ action
    | _ => (_name self +:+ ".") +:+ action
    end /\
  (forall status json,
     snd (run rt db self a opts req) = Responded status json ->
     exists c doc,
       db_calls (fst (run rt db self a opts req)) = [c] /\
       db_err db c = None /\ db_document db c = Some doc /\
       emitted (fst (run rt db self a opts req))
       = [(computeEventName self action, doc)]) /\
  (forall c, In c (db_calls (fst (run rt db self a opts req))) ->
     (db_unsuccessful db c = true ->
      emitted (fst (run rt db self a opts req)) = []) /\
     (forall doc, db_err db c = None -> db_document db c = Some doc ->
      emitted (fst (run rt db self a opts req))
        = [(computeEventName self action, doc)])) /\
  (db_calls (fst (run rt db self a opts req)) = [] ->
   emitted (fst (run rt db self a opts req)) = []).
Proof.
  intros Ha. split; [apply computeEventName_eq|].
  split; [intros status json; by apply event_on_success|].
  destruct a; try discriminate Ha; injection Ha as <-; unfold_actions;
    apply (wp_outcome _ (fun l _ =>
      (forall c, In c (db_calls l) ->
         (db_unsuccessful db c = true -> emitted l = []) /\
         (forall doc, db_err db c = None -> db_document db c = Some doc ->
          emitted l = [(_, doc)])) /\
      (db_calls l = [] -> emitted l = [])));
    wp_run; cbn; (split; [intros c; the_call c|try done]); use_handler;
    cbn in *;
    (split;
     [ let Hu := fresh in
       intros Hu; try done;
       unfold db_unsuccessful, db_result_falsy in Hu; cbn in Hu;
       repeat match goal with
       | H : toBoolean _ = _ |- _ => rewrite H in Hu
       end; cbn in Hu; congruence
     | let He := fresh in let Hd := fresh in
       intros doc He Hd; try congruence;
       repeat match goal with
       | H : context [if _ then _ else _] |- _ =>
           rewrite He, Hd in H; cbn in H
       end; congruence ]).
Qed.

Lemma string_falsy (h : string) : toBoolean h = false -> h = "".
Proof.
  unfold toBoolean, string_ToBoolean. intros H%negb_false_iff.
  by apply String.eqb_eq.
Qed.

Lemma compare_is_earlier (a b : Z) :
  compare_contract rt ->
  (DateUtils_compare rt (Some a) (Some b) =? -1) = bool_decide (a < b).
Proof.
  intros Hc. destruct (Hc a b) as [H1 H2].
  destruct (Z.eqb_spec (DateUtils_compare rt (Some a) (Some b)) (-1)) as [E|E];
    case_bool_decide; auto; tauto.
Qed.


Lemma headers_without_options (req : Request) :
  headers (without_options req) = headers req.
Proof. unfold without_options. by destruct (toBoolean _). Qed.

Lemma some_item_later (date : Z) (docs : list Document) :
  compare_contract rt ->
  existsb (fun item =>
    DateUtils_compare rt (Some date) (Some (doc_lastModified item)) =? -1) docs
  = true <->
  exists item, In item docs /\ date < doc_lastModified item.
Proof.
  intros Hcmp. rewrite existsb_exists.
  split; intros (item & Hin & H); exists item; split; auto;
    rewrite (compare_is_earlier _ _ Hcmp) in *;
    [by apply bool_decide_eq_true in H | by apply bool_decide_eq_true].
Qed.

Local Arguments existsb : simpl never.


Lemma reduceLastModified_max (memo : Z) (items : list Document) :
  compare_contract rt ->
  memo <= reduceLastModified rt memo items /\
  (forall item, In item items ->
     doc_lastModified item <= reduceLastModified rt memo items) /\
  (reduceLastModified rt memo items = memo \/
   exists item, In item items /\
     doc_lastModified item = reduceLastModified rt memo items).
Proof.
  intros Hcmp. unfold reduceLastModified.
  revert memo. induction items as [|x items IH]; intros memo; cbn.
  - split; [lia|]. split; [intros ? []|by left].
  - rewrite (compare_is_earlier _ _ Hcmp). case_bool_decide as Hlt.
    + destruct (IH (doc_lastModified x)) as (H1 & H2 & H3).
      split; [lia|]. split.
      * intros item [<-|Hin]; [lia|auto].
      * right. destruct H3 as [->|(item & Hin & E)]; eauto.
    + destruct (IH memo) as (H1 & H2 & H3).
      split; [lia|]. split.
      * intros item [<-|Hin]; [lia|auto].
      * destruct H3 as [->|(item & Hin & E)]; [by left|right; eauto].
Qed.

(** What [setHeaders] does on a non-empty list. *)
Lemma setHeaders_cons (first : Document) (rest : list Document) :
  setHeaders rt (first :: rest)
  = ([SetHeader HttpHeader.LAST_MODIFIED
        (toUTCString rt (reduceLastModified rt (doc_lastModified first) rest))],
     inr (first :: rest)).
Proof. by destruct rest. Qed.

Lemma wp_setHeaders_cons (first : Document) (rest : list Document) Q :
  Q [SetHeader HttpHeader.LAST_MODIFIED
       (toUTCString rt (reduceLastModified rt (doc_lastModified first) rest))]
    (inr (first :: rest)) ->
  wp (setHeaders rt (first :: rest)) Q.
Proof. unfold wp. by rewrite setHeaders_cons. Qed.


(** The current revision hands the paging options to the [prepareOptions]
    hook only: with the default hook, which answers [{}], [find] never sees
    them. *)
Lemma getAll_default_options (opts : Hooks (list Document)) (req : Request)
    (filter projection options : JsValue) :
  prepareOptions opts = None ->
  In (Find filter projection options)
     (db_calls (fst (getAll rt db self opts req))) ->
  options = JObj [].
Proof.
  intros Hdef. unfold_actions. rewrite Hdef. by_wp.
  wp_run; cbn; intros Hc; try contradiction;
    destruct Hc as [Hc|[]]; injection Hc as -> -> ->;
    unfold __onPrepareOptions in *; cbn in *; congruence.
Qed.

(** The filter of [getAll] is the query without its [options] key. *)
Lemma getAll_filter_without_options (opts : Hooks (list Document))
    (req : Request) (filter projection options : JsValue) :
  updateFilter opts = None -> prepareFilter opts = None ->
  In (Find filter projection options)
     (db_calls (fst (getAll rt db self opts req))) ->
  filter = JObj (query (without_options req)).
Proof.
  intros Hdef Hdef'. unfold_actions. rewrite Hdef, Hdef'. by_wp.
  wp_run; cbn; intros Hc; try contradiction;
    destruct Hc as [Hc|[]]; injection Hc as -> -> ->;
    unfold __onUpdateFilter in *; cbn in *; congruence.
Qed.

(** The options object of update as the [prepareOptions] hook leaves it. *)
Lemma update_call (opts : Hooks Document) (req : Request)
    (filter upd options : JsValue) :
  In (FindOneAndUpdate filter upd options)
     (db_calls (fst (update rt db self opts req))) ->
  upd = JObj [("$set", obj_get (_name self) (body req))] /\
  (exists projection,
     options
     = JObj (obj_set "fields" projection
               (fst (or_else (prepareOptions opts) __onPrepareOptions req
                       [("upsert", JBool false); ("new", JBool true)])))) /\
  (Model_findOneAndUpdate db filter upd options = (None, None) ->
   snd (update rt db self opts req) = Failed (HttpError 404 "Not Found") /\
   emitted (fst (update rt db self opts req)) = []) /\
  (forall doc data,
     Model_findOneAndUpdate db filter upd options = (None, Some doc) ->
     or_else (postExecute opts) __onPostExecute req doc = inr data ->
     snd (update rt db self opts req)
     = Responded 200 (DObj [(_name self, DDoc data)])).
Proof.
  unfold_actions. by_wp.
  wp_run; cbn; intros Hc; try contradiction;
    destruct Hc as [Hc|[]]; injection Hc as ? ? ?; subst;
    (split; [reflexivity|]); (split; [eexists; reflexivity|]);
    use_handler; cbn in *;
    (split; [intros Hdb|intros doc data Hdb Hpost]);
    rewrite Hdb in *; cbn in *; try discriminate; try done.
  all: repeat match goal with
       | H : Some _ = Some _ |- _ => injection H as H
       end; subst; try done;
    match goal with
    | H : _ = inl _ |- _ => rewrite Hpost in H; discriminate H
    | H : _ = inr _ |- _ => rewrite Hpost in H; by injection H as <-
    end.
Qed.

Lemma update_reaches_db (opts : Hooks Document) (req : Request)
    (filter answer projection : JsValue) :
  or_else (updateFilter opts) (or_else (prepareFilter opts) __onUpdateFilter)
    req (JObj [("_id", obj_get (_id self) (params req))]) = inr filter ->
  snd (or_else (prepareOptions opts) __onPrepareOptions req
         [("upsert", JBool false); ("new", JBool true)]) = inr answer ->
  or_else (prepareProjection opts) __onPrepareProjection req
    = inr projection ->
  db_calls (fst (update rt db self opts req))
  = [FindOneAndUpdate filter
       (JObj [("$set", obj_get (_name self) (body req))])
       (JObj (obj_set "fields" projection
                (fst (or_else (prepareOptions opts) __onPrepareOptions req
                        [("upsert", JBool false); ("new", JBool true)]))))].
Proof.
  intros Hf Ho Hp. unfold_actions. rewrite Hf, Hp.
  destruct (or_else (prepareOptions opts) __onPrepareOptions req _)
    as [written r] eqn:Ew.
  cbn in Ho. subst r. by_wp. wp_run; reflexivity.
Qed.

Lemma legacy_update_call (opts : Legacy.Hooks Document) (req : Request)
    (filter upd options : JsValue) :
  In (FindOneAndUpdate filter upd options)
     (db_calls (fst (Legacy.update db self opts req))) ->
  upd = JObj [("$set", obj_get (_name self) (body req))] /\
  prop options "upsert" = JBool false /\
  prop options "new" = JBool true /\
  (Model_findOneAndUpdate db filter upd options = (None, None) ->
   snd (Legacy.update db self opts req) = Failed (HttpError 404 "Not Found") /\
   emitted (fst (Legacy.update db self opts req)) = []) /\
  (forall doc data,
     Model_findOneAndUpdate db filter upd options = (None, Some doc) ->
     or_else (Legacy.postExecute opts) __onPostExecute req doc = inr data ->
     snd (Legacy.update db self opts req)
     = Responded 200 (DObj [(_name self, DDoc data)])).
Proof.
  unfold Legacy.update, Legacy.update_execute, Legacy.warn_deprecated;
    cbv zeta. by_wp.
  wp_run; cbn; intros Hc; try contradiction;
    destruct Hc as [Hc|[]]; injection Hc as ? ? ?; subst;
    (split; [reflexivity|]); (split; [reflexivity|]);
    (split; [reflexivity|]); use_handler; cbn in *;
    (split; [intros Hdb|intros doc data Hdb Hpost]);
    rewrite Hdb in *; cbn in *; try discriminate; try done.
  all: repeat match goal with
       | H : Some _ = Some _ |- _ => injection H as H
       end; subst; try done;
    match goal with
    | H : _ = inl _ |- _ => rewrite Hpost in H; discriminate H
    | H : _ = inr _ |- _ => rewrite Hpost in H; by injection H as <-
    end.
Qed.

Lemma legacy_update_reaches_db (opts : Legacy.Hooks Document) (req : Request)
    (filter : JsValue) (projection : JsObject) :
  Legacy.updateFilter opts = None ->
  or_else (Legacy.prepareFilter opts) __onUpdateFilter req
    (JObj [("_id", obj_get (_id self) (params req))]) = inr filter ->
  or_else (Legacy.prepareProjection opts) Legacy.__onPrepareProjection req
    = inr projection ->
  db_calls (fst (Legacy.update db self opts req))
  = [FindOneAndUpdate filter
       (JObj [("$set", obj_get (_name self) (body req))])
       (JObj [("upsert", JBool false); ("new", JBool true);
              ("fields",
               JObj (if isProjectionExclusive projection
                        && Legacy.is_undefined (obj_get "__v" projection)
                     then obj_set "__v" (JNum 0) projection
                     else projection))])].
Proof.
  intros Hu Hf Hp.
  unfold Legacy.update, Legacy.update_execute, Legacy.warn_deprecated;
    cbv zeta.
  rewrite Hu. cbn [or_else]. rewrite Hf, Hp. by_wp. wp_run; reflexivity.
Qed.

(** C8 (as amended). update of the current revision hands the object
    [{ upsert: false, new: true }] to the [prepareOptions] hook and then
    passes that very object, with [fields] set to the projection, to
    [findOneAndUpdate], together with the filter the filter hook answered
    and the update document [{ $set: req.body[name] }]: once the three hooks
    have answered, that is the one command the run issues, and every
    [findOneAndUpdate] of a run is of that form. What the hook calls back
    with is not used. So [upsert] is [false] and [new] is [true] whenever
    the hook left them so, as the default hook does; the earlier revision
    has no such hook and always passes them. When the database finds no
    document for the command (it answers [null]) the handler fails with
    [HttpError (404, 'Not Found')] and announces nothing; when it answers
    with the updated document, the response is 200 with what [postExecute]
    made of that document (the document itself by default) under the name
    of the model. *)
Theorem update_never_upserts (req : Request)
    (filter answer projection : JsValue) (legacy_projection : JsObject) :
  let upd := JObj [("$set", obj_get (_name self) (body req))] in
  let given : JsObject := [("upsert", JBool false); ("new", JBool true)] in
  let rcId := JObj [("_id", obj_get (_id self) (params req))] in
  (forall opts : Hooks Document,
     let written :=
       fst (or_else (prepareOptions opts) __onPrepareOptions req given) in
     let options := JObj (obj_set "fields" projection written) in
     or_else (updateFilter opts)
       (or_else (prepareFilter opts) __onUpdateFilter) req rcId
       = inr filter ->
     snd (or_else (prepareOptions opts) __onPrepareOptions req given)
       = inr answer ->
     or_else (prepareProjection opts) __onPrepareProjection req
       = inr projection ->
     db_calls (fst (update rt db self opts req))
       = [FindOneAndUpdate filter upd options] /\
     (prepareOptions opts = None -> written = given) /\
     (obj_get "upsert" written = JBool false ->
      prop options "upsert" = JBool false) /\
     (obj_get "new" written = JBool true ->
      prop options "new" = JBool true) /\
     (Model_findOneAndUpdate db filter upd options = (None, None) ->
      snd (update rt db self opts req) = Failed (HttpError 404 "Not Found") /\
      emitted (fst (update rt db self opts req)) = []) /\
     (forall doc data,
        Model_findOneAndUpdate db filter upd options = (None, Some doc) ->
        or_else (postExecute opts) __onPostExecute req doc = inr data ->
        snd (update rt db self opts req)
        = Responded 200 (DObj [(_name self, DDoc data)]))) /\
  (forall (opts : Hooks Document) (f u o : JsValue),
     In (FindOneAndUpdate f u o)
        (db_calls (fst (update rt db self opts req))) ->
     u = upd /\
     exists p,
       o = JObj (obj_set "fields" p
                   (fst (or_else (prepareOptions opts) __onPrepareOptions
                           req given)))) /\
  (forall opts : Legacy.Hooks Document,
     let fields :=
       if isProjectionExclusive legacy_projection
          && Legacy.is_undefined (obj_get "__v" legacy_projection)
       then obj_set "__v" (JNum 0) legacy_projection
       else legacy_projection in
     let options :=
       JObj [("upsert", JBool false); ("new", JBool true);
             ("fields", JObj fields)] in
     Legacy.updateFilter opts = None ->
     or_else (Legacy.prepareFilter opts) __onUpdateFilter req rcId
       = inr filter ->
     or_else (Legacy.prepareProjection opts) Legacy.__onPrepareProjection req
       = inr legacy_projection ->
     db_calls (fst (Legacy.update db self opts req))
       = [FindOneAndUpdate filter upd options] /\
     (Model_findOneAndUpdate db filter upd options = (None, None) ->
      snd (Legacy.update db self opts req)
        = Failed (HttpError 404 "Not Found") /\
      emitted (fst (Legacy.update db self opts req)) = []) /\
     (forall doc data,
        Model_findOneAndUpdate db filter upd options = (None, Some doc) ->
        or_else (Legacy.postExecute opts) __onPostExecute req doc = inr data ->
        snd (Legacy.update db self opts req)
        = Responded 200 (DObj [(_name self, DDoc data)]))) /\
  (forall (opts : Legacy.Hooks Document) (f u o : JsValue),
     In (FindOneAndUpdate f u o)
        (db_calls (fst (Legacy.update db self opts req))) ->
     u = upd /\ prop o "upsert" = JBool false /\ prop o "new" = JBool true).
Proof.
  intros upd given rcId. split; [|split; [|split]].
  - intros opts written options Hf Ho Hp.
    pose proof (update_reaches_db opts req filter answer projection Hf Ho Hp)
      as Hcalls.
    fold given written options upd in Hcalls.
    assert (Hin : In (FindOneAndUpdate filter upd options)
                     (db_calls (fst (update rt db self opts req))))
      by (rewrite Hcalls; by left).
    apply update_call in Hin as (_ & _ & Hnone & Hsome).
    split; [done|]. split.
    { intros Hd. subst written. by rewrite Hd. }
    split.
    { intros Hw. subst options. cbn.
      by rewrite obj_get_set_ne by discriminate. }
    split.
    { intros Hw. subst options. cbn.
      by rewrite obj_get_set_ne by discriminate. }
    split; done.
  - intros opts f u o Hin.
    apply update_call in Hin as (Hu & Ho & _). done.
  - intros opts fields options Hu Hf Hp.
    pose proof (legacy_update_reaches_db opts req filter legacy_projection
                  Hu Hf Hp) as Hcalls.
    fold fields options upd in Hcalls.
    assert (Hin : In (FindOneAndUpdate filter upd options)
                     (db_calls (fst (Legacy.update db self opts req))))
      by (rewrite Hcalls; by left).
    apply legacy_update_call in Hin as (_ & _ & _ & Hnone & Hsome).
    done.
  - intros opts f u o Hin.
    apply legacy_update_call in Hin as (Hu & H1 & H2 & _). done.
Qed.

End Properties.

(** ** The projection test *)

Lemma obj_get_head (k : string) (v : JsValue) (rest : JsObject) :
  obj_get k ((k, v) :: rest) = v.
Proof. cbn. by rewrite String.eqb_refl. Qed.

Lemma is_false_or_zero_true (v : JsValue) :
  is_false_or_zero v = true <-> v = JBool false \/ v = JNum 0.
Proof.
  split.
  - destruct v as [| |[]|[]| | | |]; cbn; intros; try discriminate; auto.
  - intros [->| ->]; reflexivity.
Qed.

(** C9. [isProjectionExclusive] answers [true] on the empty projection;
    otherwise it answers [true] exactly when the value under the first
    enumerated key is [false] or [0], whatever the other keys hold: the mixed
    projection [{a: 1, b: 0}] is not exclusive, [{a: 0, b: 1}] is. *)
Theorem isProjectionExclusive_first_key :
  isProjectionExclusive [] = true /\
  (forall (k : string) (v : JsValue) (rest : JsObject),
     isProjectionExclusive ((k, v) :: rest) = true <->
     v = JBool false \/ v = JNum 0) /\
  (forall (k : string) (v : JsValue) (rest rest' : JsObject),
     isProjectionExclusive ((k, v) :: rest)
       = isProjectionExclusive ((k, v) :: rest')) /\
  isProjectionExclusive [("a", JNum 1); ("b", JNum 0)] = false /\
  isProjectionExclusive [("a", JNum 0); ("b", JNum 1)] = true.
Proof.
  unfold isProjectionExclusive, Object_keys. cbn [map fst].
  split; [reflexivity|]. split; [|split; [|split; reflexivity]].
  - intros k v rest. rewrite obj_get_head. apply is_false_or_zero_true.
  - intros k v rest rest'. by rewrite !obj_get_head.
Qed.

(** ** The statements at work on the sample controller *)

(** Counting an empty collection succeeds with the result [0], which is
    neither [null] nor [undefined], and the completion handler still calls
    back with an error. *)
Lemma count_of_zero_is_an_error :
  ~ (forall (errMsg : string) (err : option DbError) (result : option Z) e,
       makeDbCompletionHandler errMsg err result = inl e ->
       toBoolean err = true \/ result = None).
Proof.
  intros H.
  destruct (H "Failed to count resources" None (Some 0)
              (HttpError 404 "Not Found") eq_refl) as [?|?]; discriminate.
Qed.

Example count_on_empty_collection :
  snd (run Sample.rt Sample.empty_db Sample.self aCount no_hooks
         Sample.get_nobody)
  = Failed (HttpError 404 "Not Found").
Proof. reflexivity. Qed.

(** C1 at a count of zero. The database call of count succeeds and yields a
    result, the number [0]; the completion handler, whose [!result] is the
    test for a missing document shared with the other actions, takes it for
    no result and the request is answered 404, although the next task of
    count is there to answer [{count: count}]. On the same collection getAll,
    whose empty list is truthy, answers 200. *)
Theorem count_of_zero_is_not_found :
  Model_count Sample.empty_db (JObj []) = (None, Some 0) /\
  makeDbCompletionHandler "Failed to count resources"
    (None : option DbError) (Some 0)
  = inl (HttpError 404 "Not Found") /\
  run Sample.rt Sample.empty_db Sample.self aCount no_hooks Sample.get_nobody
  = ([CallHook hPrepareFilter; DbCall (Count (JObj []))],
     Failed (HttpError 404 "Not Found")) /\
  snd (run Sample.rt Sample.empty_db Sample.self aGetAll no_hooks
         Sample.get_nobody)
  = Responded 200 (DObj [("users", DDocs [])]).
Proof. repeat split; vm_compute; reflexivity. Qed.

Lemma db_completion_errors_witness :
  In (FindOne (JObj [("_id", JStr "a1")]) (JObj []))
     (db_calls (fst (run Sample.rt Sample.failing_db Sample.self aGet
                       no_hooks Sample.get_alice))) /\
  toBoolean (db_err Sample.failing_db
               (FindOne (JObj [("_id", JStr "a1")]) (JObj []))) = true /\
  snd (run Sample.rt Sample.failing_db Sample.self aGet no_hooks
         Sample.get_alice)
  = Failed (HttpError 400 "Failed to retrieve resource").
Proof.
  assert (Hc : In (FindOne (JObj [("_id", JStr "a1")]) (JObj []))
     (db_calls (fst (run Sample.rt Sample.failing_db Sample.self aGet
                       no_hooks Sample.get_alice)))).
  { left. reflexivity. }
  split; [exact Hc|]. split; [reflexivity|].
  exact (proj1 (proj2 (db_completion_errors Sample.rt Sample.failing_db
                         Sample.self) aGet no_hooks Sample.get_alice _ Hc)
           eq_refl).
Defined.

Lemma missing_resource_id_witness :
  toBoolean (obj_get (_id Sample.self) (params Sample.get_nobody)) = false /\
  ResourceController.get_validate Sample.self no_hooks Sample.get_nobody
  = ([], inl (HttpError 400 "Missing resource id")).
Proof.
  split; [reflexivity|].
  exact (proj1 (proj1 (missing_resource_id Sample.rt Sample.self no_hooks
                         Sample.get_nobody) eq_refl)).
Defined.

Lemma events_emitted_witness :
  (event_of aCreate = Some "created" /\
   exists c doc,
     db_calls (fst (run Sample.rt Sample.db Sample.self aCreate no_hooks
                      Sample.put_alice)) = [c] /\
     db_err Sample.db c = None /\ db_document Sample.db c = Some doc /\
     emitted (fst (run Sample.rt Sample.db Sample.self aCreate no_hooks
                     Sample.put_alice))
     = [(computeEventName Sample.self "created", doc)]) /\
  (event_of aUpdate = Some "updated" /\
   exists c doc,
     db_calls (fst (run Sample.rt Sample.db Sample.self aUpdate no_hooks
                      Sample.put_alice)) = [c] /\
     db_err Sample.db c = None /\ db_document Sample.db c = Some doc /\
     emitted (fst (run Sample.rt Sample.db Sample.self aUpdate no_hooks
                     Sample.put_alice))
     = [(computeEventName Sample.self "updated", doc)]) /\
  (event_of aDelete = Some "deleted" /\
   emitted (fst (run Sample.rt Sample.db Sample.self aDelete no_hooks
                   Sample.get_alice))
   = [("user.deleted", Sample.alice)]).
Proof.
  split; [|split]; (split; [reflexivity|]).
  - exact (proj1 (proj2 (events_emitted Sample.rt Sample.db Sample.self
                           aCreate "created" no_hooks Sample.put_alice
                           eq_refl))
             200 (DObj [("user", DDoc Sample.alice)]) eq_refl).
  - exact (proj1 (proj2 (events_emitted Sample.rt Sample.db Sample.self
                           aUpdate "updated" no_hooks Sample.put_alice
                           eq_refl))
             200 (DObj [("user", DDoc Sample.alice)]) eq_refl).
  - refine (proj2 (proj1 (proj2 (proj2 (events_emitted Sample.rt Sample.db
              Sample.self aDelete "deleted" no_hooks Sample.get_alice
              eq_refl)))
              (FindOneAndRemove (JObj [("_id", JStr "a1")])) _)
              Sample.alice eq_refl eq_refl).
    left. reflexivity.
Defined.

Example events_on_the_sample :
  emitted (fst (run Sample.rt Sample.db Sample.self aCreate no_hooks
                  Sample.put_alice)) = [("user.created", Sample.alice)] /\
  emitted (fst (run Sample.rt Sample.db Sample.self aUpdate no_hooks
                  Sample.put_alice)) = [("user.updated", Sample.alice)] /\
  emitted (fst (run Sample.rt Sample.empty_db Sample.self aUpdate no_hooks
                  Sample.put_alice)) = [] /\
  emitted (fst (run Sample.rt Sample.failing_db Sample.self aCreate no_hooks
                  Sample.put_alice)) = [].
Proof. repeat split; vm_compute; reflexivity. Qed.

Lemma sample_compare_contract : compare_contract Sample.rt.
Proof.
  intros a b. cbn. unfold Sample.compare.
  destruct (Z.ltb_spec a b), (Z.ltb_spec b a); split; intros; (lia || done).
Qed.

Lemma sample_parse_contract : parse_contract Sample.rt.
Proof. reflexivity. Qed.



Example getAll_not_modified :
  ResourceController.getAll Sample.rt Sample.db Sample.self no_hooks
    Sample.list_since
  = ([CallHook hPrepareFilter; CallHook hPrepareProjection;
      CallHook hPrepareOptions; DbCall (Find (JObj []) (JObj []) (JObj []))],
     Failed (HttpError 304 "Not Changed")).
Proof. vm_compute. reflexivity. Qed.



(** C7 at a request that pages: the current revision calls [find] with empty
    options, the paging being lost between the query string and the
    database; the earlier revision passes [skip] and [limit] on. In both the
    filter is the query without its [options] key. *)
Theorem getAll_paging_options_dropped :
  db_calls (fst (ResourceController.getAll Sample.rt Sample.db Sample.self
                   no_hooks Sample.list_page))
  = [Find (JObj [("name", JStr "alice")]) (JObj []) (JObj [])] /\
  db_calls (fst (Legacy.getAll Sample.rt Sample.db Sample.self
                   Legacy.no_hooks Sample.list_page))
  = [Find (JObj [("name", JStr "alice")]) (JObj [("__v", JNum 0)])
       (JObj [("skip", JNum 5); ("limit", JNum 10)])].
Proof. split; vm_compute; reflexivity. Qed.

(** C8 as first stated does not hold: a [prepareOptions] hook that writes
    [upsert: true] into the options it is handed makes update call
    [findOneAndUpdate] with [upsert: true], here for an id no document
    has. *)
Lemma update_hook_can_upsert :
  ~ (forall (opts : Hooks Document) (req : Request)
            (filter upd options : JsValue),
       In (FindOneAndUpdate filter upd options)
          (db_calls (fst (ResourceController.update Sample.rt Sample.db
                            Sample.self opts req))) ->
       prop options "upsert" = JBool false /\
       prop options "new" = JBool true).
Proof.
  intros H.
  destruct (H Sample.upserting Sample.put_nobody
              (JObj [("_id", JStr "z9")])
              (JObj [("$set", JObj [("name", JStr "zoe")])])
              (JObj [("upsert", JBool true); ("new", JBool true);
                     ("fields", JObj [])])) as [Hu _].
  - vm_compute. left. reflexivity.
  - vm_compute in Hu. discriminate Hu.
Qed.

Example update_with_upserting_hook :
  db_calls (fst (ResourceController.update Sample.rt Sample.db Sample.self
                   Sample.upserting Sample.put_nobody))
  = [FindOneAndUpdate (JObj [("_id", JStr "z9")])
       (JObj [("$set", JObj [("name", JStr "zoe")])])
       (JObj [("upsert", JBool true); ("new", JBool true);
              ("fields", JObj [])])].
Proof. vm_compute. reflexivity. Qed.

Lemma update_never_upserts_witness :
  db_calls (fst (ResourceController.update Sample.rt Sample.empty_db
                   Sample.self no_hooks Sample.put_alice))
  = [FindOneAndUpdate (JObj [("_id", JStr "a1")])
       (JObj [("$set", JObj [("name", JStr "alice")])])
       (JObj [("upsert", JBool false); ("new", JBool true);
              ("fields", JObj [])])] /\
  snd (ResourceController.update Sample.rt Sample.empty_db Sample.self
         no_hooks Sample.put_alice)
  = Failed (HttpError 404 "Not Found") /\
  db_calls (fst (Legacy.update Sample.db Sample.self Legacy.no_hooks
                   Sample.put_alice))
  = [FindOneAndUpdate (JObj [("_id", JStr "a1")])
       (JObj [("$set", JObj [("name", JStr "alice")])])
       (JObj [("upsert", JBool false); ("new", JBool true);
              ("fields", JObj [("__v", JNum 0)])])] /\
  snd (Legacy.update Sample.db Sample.self Legacy.no_hooks Sample.put_alice)
  = Responded 200 (DObj [("user", DDoc Sample.alice)]).
Proof.
  pose proof (update_never_upserts Sample.rt Sample.empty_db Sample.self
                Sample.put_alice (JObj [("_id", JStr "a1")]) (JObj [])
                (JObj []) []) as (Hnew & _ & _).
  destruct (Hnew no_hooks eq_refl eq_refl eq_refl)
    as (Hcalls & _ & _ & _ & Hnone & _).
  pose proof (update_never_upserts Sample.rt Sample.db Sample.self
                Sample.put_alice (JObj [("_id", JStr "a1")]) (JObj [])
                (JObj []) []) as (_ & _ & Hold & _).
  destruct (Hold Legacy.no_hooks eq_refl eq_refl eq_refl)
    as (Hcalls' & _ & Hsome).
  split; [exact Hcalls|]. split; [exact (proj1 (Hnone eq_refl))|].
  split; [exact Hcalls'|].
  exact (Hsome Sample.alice Sample.alice eq_refl eq_refl).
Defined.

(** ** Population *)

Section PopulationProperties.

Import Population.

Context (pluralize : string -> string) (toString : JsValue -> string)
        (_populators : gmap string Populator).

Lemma indexOf_lower (coll : list string) (s : string) : -1 <= indexOf coll s.
Proof.
  induction coll as [|x coll IH]; cbn; [lia|].
  destruct (String.eqb x s); [lia|].
  destruct (Z.eqb_spec (indexOf coll s) (-1)); lia.
Qed.

Lemma indexOf_absent (coll : list string) (s : string) :
  indexOf coll s = -1 <-> s ∉ coll.
Proof.
  induction coll as [|x coll IH]; cbn.
  - split; [intros _; apply not_elem_of_nil|done].
  - rewrite not_elem_of_cons. destruct (String.eqb_spec x s) as [->|Hne].
    + split; [lia|tauto].
    + pose proof (indexOf_lower coll s) as Hlow.
      destruct (Z.eqb_spec (indexOf coll s) (-1)) as [E|E].
      * split; [intros _; split; [congruence|by apply IH]|done].
      * split; [lia|intros [_ Hs]; apply IH in Hs; lia].
Qed.

Lemma ids_of_ensure (p q : string) (st : Population) :
  ids_of (ensure p st) q = ids_of st q.
Proof.
  unfold ids_of, ensure; cbn. destruct (_ids st !! p) eqn:E; [done|].
  destruct (decide (p = q)) as [<-|Hne].
  - by rewrite lookup_insert_eq, E.
  - by rewrite lookup_insert_ne.
Qed.

Lemma population_of_ensure (p q : string) (st : Population) :
  population_of (ensure p st) q = population_of st q.
Proof.
  unfold population_of, ensure; cbn. destruct (population st !! p) eqn:E; [done|].
  destruct (decide (p = q)) as [<-|Hne].
  - by rewrite lookup_insert_eq, E.
  - by rewrite lookup_insert_ne.
Qed.

Lemma ids_of_push_id (p s q : string) (st : Population) :
  ids_of (push_id p s st) q
  = if decide (p = q) then ids_of st p ++ [s] else ids_of st q.
Proof.
  unfold ids_of at 1, push_id; cbn. case_decide as E.
  - subst q. by rewrite lookup_insert_eq.
  - by rewrite lookup_insert_ne.
Qed.

Lemma population_of_push_model (p : string) (m : JsValue) (q : string)
    (st : Population) :
  population_of (push_model p m st) q
  = if decide (p = q) then population_of st p ++ [m] else population_of st q.
Proof.
  unfold population_of at 1, push_model; cbn. case_decide as E.
  - subst q. by rewrite lookup_insert_eq.
  - by rewrite lookup_insert_ne.
Qed.

Lemma requested_record_fetch (f : Fetch) (st : Population) (q : string) :
  requested toString (record_fetch f st) q
  = requested toString st q
    ++ (if String.eqb (fetch_plural f) q then map toString (fetch_ids f)
        else []).
Proof.
  unfold requested, record_fetch; cbn.
  rewrite map_app, concat_app; cbn. by rewrite app_nil_r.
Qed.

Lemma answered_record_fetch (f : Fetch) (st : Population) (q : string) :
  answered (record_fetch f st) q
  = answered st q
    ++ (if String.eqb (fetch_plural f) q
        then match fetch_answer f with inr model => [model] | inl _ => [] end
        else []).
Proof.
  unfold answered, record_fetch; cbn.
  rewrite map_app, concat_app; cbn. by rewrite app_nil_r.
Qed.

Lemma toString_of_inr (id : JsValue) (idStr : string) :
  toString_of toString id = inr idStr -> idStr = toString id.
Proof. destruct id; cbn; congruence. Qed.

(** The filter of [visitPopulateArray] pushes ids none of which is already
    there; when it has a result, the ids it pushed are those it keeps. *)
Lemma filter_firstTime_spec (plural : string) (value : list JsValue) :
  forall (st : Population) r st',
    filter_firstTime toString plural value st = (r, st') ->
    population st' = population st /\ fetches st' = fetches st /\
    (forall q, q <> plural -> ids_of st' q = ids_of st q) /\
    (exists pushed,
       ids_of st' plural = ids_of st plural ++ pushed /\
       forall result, r = inr result -> pushed = map toString result) /\
    (NoDup (ids_of st plural) -> NoDup (ids_of st' plural)).
Proof.
  induction value as [|id value IH]; intros st r st' Hrun; cbn in Hrun.
  - injection Hrun as <- <-. repeat split; auto.
    exists []. rewrite app_nil_r. split; [done|]. by intros result [= <-].
  - destruct (toString_of toString id) as [e|idStr] eqn:Eid.
    { injection Hrun as <- <-. repeat split; auto.
      exists []. rewrite app_nil_r. split; [done|]. by intros result [=]. }
    apply toString_of_inr in Eid. subst idStr.
    destruct (filter_firstTime toString plural value _) as [r2 st2] eqn:E.
    injection Hrun as <- <-.
    apply IH in E as (Hp & Hf & Hq & (pushed & Hi & Hres) & Hn).
    destruct (Z.eqb_spec (indexOf (ids_of st plural) (toString id)) (-1))
      as [Hnew|Hold]; cbn in *.
    + rewrite ids_of_push_id in Hi, Hn. rewrite decide_True in Hi, Hn by done.
      repeat split; auto.
      * intros q Hne. rewrite (Hq q Hne), ids_of_push_id.
        by rewrite decide_False by congruence.
      * exists (toString id :: pushed). split.
        -- by rewrite Hi, <- app_assoc.
        -- intros result Hr. destruct r2 as [e|result2]; [done|].
           injection Hr as <-. cbn. f_equal. by apply Hres.
      * intros Hnd. apply Hn. apply NoDup_app. repeat split; auto.
        -- intros x Hx ->%list_elem_of_singleton.
           by apply indexOf_absent in Hnew.
        -- apply NoDup_singleton.
    + repeat split; auto. exists pushed. split; [done|].
      intros result Hr. destruct r2 as [e|result2]; [done|].
      injection Hr as <-. by apply Hres.
Qed.

Lemma remaining_ids_spec (populate : Populate) (value : JsValue)
    (plural : string) (st : Population) rem st' :
  remaining_ids toString populate value plural st = (rem, st') ->
  population st' = population st /\ fetches st' = fetches st /\
  (forall q, q <> plural -> ids_of st' q = ids_of st q) /\
  (exists pushed,
     ids_of st' plural = ids_of st plural ++ pushed /\
     (forall remaining ids,
        rem = inr (Some (remaining, ids)) -> pushed = map toString ids) /\
     (rem = inr None -> pushed = [])) /\
  (NoDup (ids_of st plural) -> NoDup (ids_of st' plural)).
Proof.
  unfold remaining_ids. destruct (populate_accept populate).
  - destruct (Z.eqb_spec (indexOf (ids_of st plural) (toString value)) (-1))
      as [Hnew|Hold]; cbn; intros [= <- <-]; cbn.
    + rewrite ids_of_push_id, decide_True by done. repeat split; auto.
      * intros q Hne. rewrite ids_of_push_id. by rewrite decide_False.
      * exists [toString value]. split; [done|]. split; [|done].
        by intros remaining ids [= <- <-].
      * intros Hnd. apply NoDup_app. repeat split; auto.
        -- intros x Hx ->%list_elem_of_singleton.
           by apply indexOf_absent in Hnew.
        -- apply NoDup_singleton.
    + repeat split; auto. exists []. rewrite app_nil_r.
      split; [done|]. split; [|done]. by intros remaining ids [=].
  - destruct (filter_firstTime toString plural (collection_items value) st)
      as [r st2] eqn:E.
    intros [= <- <-]. apply filter_firstTime_spec in E.
    destruct E as (Hp & Hf & Hq & (pushed & Hi & Hres) & Hn).
    repeat split; auto. exists pushed. split; [done|].
    destruct r as [e|result]; [split; [by intros ? ? [=]|by intros [=]]|].
    specialize (Hres result eq_refl). subst pushed.
    destruct result as [|x result]; cbn.
    + split; [by intros ? ? [=]|done].
    + split; [by intros ? ? [= <- <-]|by intros [=]].
Qed.

Lemma eachOf_preserves {A S} (P : S -> Prop) (coll : list A)
    (iteratee : A -> S -> S * Status) :
  (forall x st, P st -> P (fst (iteratee x st))) ->
  forall st, P st -> P (fst (eachOf coll iteratee st)).
Proof.
  intros Hstep. induction coll as [|x coll IH]; intros st Hst; cbn; [done|].
  specialize (Hstep x st Hst). destruct (iteratee x st) as [st' []]; auto.
Qed.

Lemma each_preserves {A S} (P : S -> Prop) (arr : list A)
    (iteratee : A -> S -> S * Status) :
  (forall x st, P st -> P (fst (iteratee x st))) ->
  forall st, P st -> P (fst (each arr iteratee st)).
Proof.
  intros Hstep. induction arr as [|x arr IH]; intros st Hst; cbn; [done|].
  specialize (Hstep x st Hst). destruct (iteratee x st) as [st' s1].
  specialize (IH st' Hstep).
  destruct s1; try done; by destruct (each arr iteratee st').
Qed.

Lemma consistent_new : consistent toString new_Population.
Proof.
  intros plural. unfold ids_of, population_of, requested, answered; cbn.
  rewrite !lookup_empty; cbn.
  repeat split; try apply NoDup_nil_2; done.
Qed.

Lemma consistent_ensure (plural : string) (st : Population) :
  consistent toString st -> consistent toString (ensure plural st).
Proof.
  intros Hst q. rewrite ids_of_ensure, population_of_ensure. apply Hst.
Qed.

(** Ids that were pushed and then not asked for (nothing remained, or an
    exception escaped from the filter) leave the state consistent. *)
Lemma consistent_pushed (plural : string) (pushed : list string)
    (st st' : Population) :
  consistent toString st ->
  population st' = population st -> fetches st' = fetches st ->
  (forall q, q <> plural -> ids_of st' q = ids_of st q) ->
  ids_of st' plural = ids_of st plural ++ pushed ->
  NoDup (ids_of st' plural) ->
  consistent toString st'.
Proof.
  intros Hst Hp Hf Hq Hi Hn q. destruct (Hst q) as (H1 & H2 & H3 & H4).
  unfold population_of, requested, answered. rewrite Hp, Hf.
  fold (population_of st q) (requested toString st q) (answered st q).
  destruct (decide (q = plural)) as [->|Hne].
  - repeat split; auto. intros idStr Hin. rewrite Hi.
    apply in_or_app. left. by apply H3.
  - rewrite (Hq q Hne). repeat split; auto.
Qed.

Lemma consistent_fetch (plural : string) (ids : list JsValue)
    (answer : Error + JsValue) (st st' : Population) :
  consistent toString st ->
  population st' = population st -> fetches st' = fetches st ->
  (forall q, q <> plural -> ids_of st' q = ids_of st q) ->
  ids_of st' plural = ids_of st plural ++ map toString ids ->
  NoDup (ids_of st' plural) ->
  consistent toString
    (let st'' := record_fetch {| fetch_plural := plural; fetch_ids := ids;
                                 fetch_answer := answer |} st' in
     match answer with
     | inl _ => st''
     | inr model => push_model plural model st''
     end).
Proof.
  intros Hst Hp Hf Hq Hi Hn q.
  pose proof (consistent_pushed plural _ st st' Hst Hp Hf Hq Hi Hn q)
    as (H1 & H2 & H3 & H4).
  destruct (Hst q) as (_ & _ & H3' & _).
  assert (Hreq : requested toString st' q = requested toString st q)
    by (unfold requested; by rewrite Hf).
  set (f := {| fetch_plural := plural; fetch_ids := ids;
               fetch_answer := answer |}).
  cbv zeta.
  assert (Hids : forall s,
    ids_of (match answer with
            | inl _ => record_fetch f s
            | inr model => push_model plural model (record_fetch f s)
            end) q = ids_of s q) by (intros s0; by destruct answer).
  assert (Hrq : forall s,
    requested toString
      (match answer with
       | inl _ => record_fetch f s
       | inr model => push_model plural model (record_fetch f s)
       end) q
    = requested toString s q
      ++ (if String.eqb plural q then map toString ids else [])).
  { intros s0. destruct answer;
      [|change (requested toString (push_model plural ?m ?s) q)
          with (requested toString s q)];
      by rewrite requested_record_fetch. }
  rewrite Hids, Hrq. split; [done|].
  destruct (String.eqb_spec plural q) as [<-|Hne].
  - split; [|split].
    + rewrite Hreq. apply NoDup_app. split; [by destruct (Hst plural) as (_ & ? & _)|].
      rewrite Hi in Hn. apply NoDup_app in Hn as (_ & Hdisj & Hnd).
      split; [|done]. intros x Hx Hx'. apply (Hdisj x); [|done].
      apply list_elem_of_In, H3', list_elem_of_In. done.
    + intros idStr [Hin|Hin]%in_app_or; [by apply H3|].
      rewrite Hi. apply in_or_app. by right.
    + destruct answer as [err|model].
      * change (population_of (record_fetch f st') plural)
          with (population_of st' plural).
        rewrite answered_record_fetch; cbn.
        rewrite String.eqb_refl, app_nil_r. done.
      * rewrite population_of_push_model, decide_True by done.
        change (answered (push_model plural model ?s) plural)
          with (answered s plural).
        change (population_of (record_fetch f st') plural)
          with (population_of st' plural).
        rewrite answered_record_fetch; cbn.
        rewrite String.eqb_refl. by rewrite H4.
  - rewrite app_nil_r. split; [done|]. split; [done|].
    destruct answer as [err|model].
    + change (population_of (record_fetch f st') q)
        with (population_of st' q).
      rewrite answered_record_fetch; cbn.
      destruct (String.eqb_spec plural q); [done|]. by rewrite app_nil_r.
    + rewrite population_of_push_model, decide_False by done.
      change (answered (push_model plural model ?s) q)
        with (answered s q).
      change (population_of (record_fetch f st') q)
        with (population_of st' q).
      rewrite answered_record_fetch; cbn.
      destruct (String.eqb_spec plural q); [done|]. by rewrite app_nil_r.
Qed.

Lemma populate_consistent (fuel : nat) :
  forall (populator : Populator) (data : JsValue) (st : Population),
    consistent toString st ->
    consistent toString
      (fst (_populate pluralize toString _populators fuel populator data st)).
Proof.
  induction fuel as [|fuel IH]; intros populator data st Hst;
    cbn [_populate]; [done|].
  destruct (negb (toBoolean data)); [done|].
  apply eachOf_preserves; [|done]. clear st Hst.
  intros [path populate] st Hst.
  destruct (negb (toBoolean (prop data path))); [done|].
  set (plural := pluralize (modelName (populate_Model populate))).
  apply (consistent_ensure plural) in Hst.
  destruct (remaining_ids toString populate (prop data path) plural
              (ensure plural st)) as [rem st2] eqn:E.
  apply remaining_ids_spec in E
    as (Hp & Hf & Hq & (pushed & Hi & Hsome & Hnone) & Hn).
  specialize (Hn (proj1 (Hst plural))).
  destruct rem as [e|[[remaining ids]|]].
  - by apply (consistent_pushed plural pushed (ensure plural st)).
  - rewrite (Hsome remaining ids eq_refl) in Hi.
    pose proof (consistent_fetch plural ids
                  (populate_populate populate remaining) _ _
                  Hst Hp Hf Hq Hi Hn) as Hnext.
    cbv zeta in Hnext.
    destruct (populate_populate populate remaining) as [err|model]; [done|].
    assert (Hrec : forall st0, consistent toString st0 ->
              consistent toString
                (fst (populateElement_with _populators
                        (_populate pluralize toString _populators fuel)
                        (getKeyFromModel (populate_Model populate)) model st0))).
    { intros st0 Hst0. unfold populateElement_with.
      destruct (_populators !! _); [by apply IH|done]. }
    destruct model; try (by apply Hrec).
    unfold populateArray_with.
    destruct (_populators !! _); [|done].
    apply each_preserves; [|done]. intros x st0 Hst0. by apply IH.
  - by apply (consistent_pushed plural pushed (ensure plural st)).
Qed.

(** C10. Whatever [_populate] is called with, and wherever the run stops
    (also when an exception escapes from it), it keeps a [Population]
    consistent: under every collection key [_ids] holds each id string at
    most once, no id string was handed twice to [populate.populate] for the
    collection (an id whose string is already there is skipped by both
    visitors), the ones handed to it are among those [_ids] holds, and
    [population] holds the answers to those calls, each once. A new
    [Population] is consistent, so this holds throughout its life, across
    the recursive calls. *)
Theorem populate_keeps_ids_unique (fuel : nat) (populator : Populator)
    (data : JsValue) (st : Population) :
  consistent toString st ->
  let st' := fst (_populate pluralize toString _populators fuel populator
                    data st) in
  forall plural : string,
    NoDup (ids_of st' plural) /\
    NoDup (requested toString st' plural) /\
    (forall idStr, In idStr (requested toString st' plural) ->
       In idStr (ids_of st' plural)) /\
    population_of st' plural ≡ₚ answered st' plural.
Proof.
  intros Hst st' plural.
  exact (populate_consistent fuel populator data st Hst plural).
Qed.

End PopulationProperties.

Example populated_ids :
  Population.ids_of Sample.populated "users" = ["u1"; "u3"] /\
  map Population.fetch_ids (Population.fetches Sample.populated)
  = [[JStr "u1"; JStr "u3"]] /\
  snd (Population._populate Sample.plural_s Sample.id_toString
         Sample.populators 4 Sample.user_populator Sample.carol
         Population.new_Population) = Population.Done.
Proof. vm_compute. repeat split; reflexivity. Qed.

(** A hole among the references: the filter of the array visitor pushes
    [u1], then raises on [null]; nothing is fetched, and [u1] stays
    known. *)
Example populate_with_a_hole :
  Population._populate Sample.plural_s Sample.id_toString Sample.populators 4
    Sample.user_populator Sample.dave Population.new_Population
  = ({| Population._ids := {[ "users" := ["u1"] ]};
        Population.population := {[ "users" := [] ]};
        Population.fetches := [] |},
     Population.Thrown (TypeError "Cannot read properties of null")).
Proof. vm_compute. reflexivity. Qed.

Lemma populate_keeps_ids_unique_witness :
  Population.consistent Sample.id_toString Population.new_Population /\
  NoDup (Population.requested Sample.id_toString Sample.populated "users") /\
  NoDup (Population.ids_of
           (fst (Population._populate Sample.plural_s Sample.id_toString
                   Sample.populators 4 Sample.user_populator Sample.dave
                   Population.new_Population)) "users").
Proof.
  split; [apply consistent_new|]. split.
  - exact (proj1 (proj2
      (populate_keeps_ids_unique Sample.plural_s Sample.id_toString
         Sample.populators 4 Sample.user_populator Sample.carol
         Population.new_Population (consistent_new Sample.id_toString)
         "users"))).
  - exact (proj1
      (populate_keeps_ids_unique Sample.plural_s Sample.id_toString
         Sample.populators 4 Sample.user_populator Sample.dave
         Population.new_Population (consistent_new Sample.id_toString)
         "users")).
Defined.

(** ** Validation schemas *)

Lemma indexOf_not_found (coll : list string) (s : string) :
  Population.indexOf coll s = -1 <-> s ∉ coll.
Proof. exact (indexOf_absent (fun x => x) coll s). Qed.

Lemma kind_is_known (kind : JsValue) :
  NumberValidator.indexOf_kind kind <> -1 <->
  exists s, kind = JStr s /\ In s NumberValidator.kinds.
Proof.
  unfold NumberValidator.indexOf_kind. split.
  - destruct kind as [| | | | |s| |]; try (intros Hi; by destruct Hi).
    intros Hi. exists s. split; [done|].
    apply list_elem_of_In.
    destruct (decide (s ∈ NumberValidator.kinds)) as [Hin|Hout]; [done|].
    by apply indexOf_not_found in Hout.
  - intros (s & -> & Hin) Hi. apply indexOf_not_found in Hi.
    by apply list_elem_of_In in Hin.
Qed.

(** X1. For a path whose [validation.kind] is one of ['Decimal'], ['Float'],
    ['Int'], ['Numeric'], the number validator answers a schema with the
    single key ['is' + kind]: its [errorMessage] is ['Invalid/missing ' +
    kind], and it carries [validation.options] exactly when that is
    truthy. *)
Theorem Number_schema (format : JsValue -> string) (path : SchemaType)
    (validation : JsValue) (kind : string) :
  js_get (options path) "validation" = Some validation ->
  prop validation "kind" = JStr kind ->
  In kind NumberValidator.kinds ->
  NumberValidator.Number format path
  = inr [("is" +:+ kind,
          JObj (("errorMessage", JStr ("Invalid/missing " +:+ kind))
                :: if toBoolean (prop validation "options")
                   then [("options", prop validation "options")]
                   else []))].
Proof.
  intros Hv Hk Hin. unfold NumberValidator.Number. rewrite Hv.
  assert (Ht : toBoolean validation = true).
  { destruct validation; try done; cbn in Hk; discriminate. }
  rewrite Ht, Hk.
  destruct Hin as [<-|[<-|[<-|[<-|[]]]]]; cbn;
    by destruct (toBoolean (prop validation "options")).
Qed.

(** X2. The number validator throws in two cases only: the [TypeError] of
    reading [validation] off missing options, and
    [Error ('Invalid number kind: ' + kind)] when [validation.kind] is truthy
    and is none of the four kinds. *)
Theorem Number_throws (format : JsValue -> string) (path : SchemaType)
    (e : Raised) :
  NumberValidator.Number format path = inl e <->
  (js_get (options path) "validation" = None /\
   e = RaisedTypeError "Cannot read properties of undefined") \/
  (exists validation,
     js_get (options path) "validation" = Some validation /\
     toBoolean validation = true /\
     toBoolean (prop validation "kind") = true /\
     (forall s, In s NumberValidator.kinds -> prop validation "kind" <> JStr s) /\
     e = RaisedError ("Invalid number kind: "
                      +:+ NumberValidator.string_of format
                            (prop validation "kind"))).
Proof.
  unfold NumberValidator.Number.
  destruct (js_get (options path) "validation") as [validation|] eqn:Hv.
  - destruct (toBoolean validation) eqn:Ht.
    + destruct (toBoolean (prop validation "kind")) eqn:Hk.
      * destruct (Z.eqb_spec (NumberValidator.indexOf_kind
                                (prop validation "kind")) (-1)) as [Hi|Hi].
        -- split.
           ++ intros [= <-]. right. exists validation.
              repeat split; auto. intros s Hin Hs.
              assert (NumberValidator.indexOf_kind (prop validation "kind")
                      <> -1) by (apply kind_is_known; eauto).
              done.
           ++ intros [[[=] _]|(v & [= <-] & _ & _ & _ & ->)]. done.
        -- split; [done|].
           intros [[[=] _]|(v & [= <-] & _ & _ & Hno & _)].
           apply kind_is_known in Hi as (s & Hs & Hin). by destruct (Hno s Hin).
      * split; [done|]. intros [[[=] _]|(v & [= <-] & _ & ? & _)]. congruence.
    + split; [done|]. intros [[[=] _]|(v & [= <-] & ? & _)]. congruence.
  - split.
    + intros [= <-]. by left.
    + intros [[_ ->]|(v & [=] & _)]. done.
Qed.

Lemma obj_extend_head (src : JsObject) :
  forall (k : string) (v : JsValue) (o : JsObject),
    exists w rest, obj_extend ((k, v) :: o) src = (k, w) :: rest.
Proof.
  unfold obj_extend.
  induction src as [|[k' v'] src IH]; intros k v o; cbn; [eauto|].
  destruct (String.eqb_spec k' k) as [->|Hne]; apply IH.
Qed.

Lemma in_obj_set (k k' : string) (v v' : JsValue) (o : JsObject) :
  In (k, v) (obj_set k' v' o) -> (k = k' /\ v = v') \/ In (k, v) o.
Proof.
  induction o as [|[k0 v0] o IH]; cbn.
  - intros [[= <- <-]|[]]. by left.
  - destruct (String.eqb k' k0).
    + intros [[= <- <-]|Hin]; [by left|right; by right].
    + intros [Heq|Hin]; [right; by left|].
      destruct (IH Hin) as [?|?]; [by left|right; by right].
Qed.

Lemma obj_set_fresh (k : string) (v : JsValue) (o : JsObject) :
  ~ In k (Object_keys o) -> obj_set k v o = o ++ [(k, v)].
Proof.
  induction o as [|[k0 v0] o IH]; cbn; [done|].
  intros Hn. destruct (String.eqb_spec k k0) as [->|Hne]; [tauto|].
  rewrite IH; [done|tauto].
Qed.

Lemma append_inj (p a b : string) : p +:+ a = p +:+ b -> a = b.
Proof. induction p as [|c p IH]; cbn; [done|]. intros [= H]. auto. Qed.

Section ValidationSchemaProperties.

Import ValidationSchema.

Context (instances : string -> option (SchemaType -> Raised + JsObject)).

Lemma makeValidationForSchemaType_head (schemaType : SchemaType)
    (allOptional_ : JsValue) (schema : JsObject) :
  makeValidationForSchemaType instances schemaType allOptional_ = inr schema ->
  exists v rest,
    schema
    = ((if negb (toBoolean (isRequired schemaType))
           || objectPath_has (options schemaType) "default"
           || toBoolean (objectPath_get2 (options schemaType) "validation"
                           "optional" (JBool false))
           || toBoolean allOptional_
        then "optional" else "notEmpty"), v) :: rest /\
    (instances (instance schemaType) = None -> v = JBool true /\ rest = []).
Proof.
  unfold makeValidationForSchemaType.
  destruct (negb (toBoolean (isRequired schemaType))) eqn:Hr;
  destruct (objectPath_has (options schemaType) "default") eqn:Hd;
  destruct (toBoolean (objectPath_get2 _ _ _ _)) eqn:Hv;
  destruct (toBoolean allOptional_) eqn:Ha; cbn;
  try (apply negb_false_iff in Hr; rewrite Hr; cbn);
  (destruct (instances (instance schemaType)) as [validator|];
   [ destruct (validator schemaType) as [e|instanceSchema]; [done|];
     intros [= <-];
     match goal with
     | |- context [obj_extend ((?k, ?v) :: ?o) ?src] =>
         destruct (obj_extend_head src k v o) as (w & rest & ->)
     end; exists w, rest; split; [done|done]
   | intros [= <-]; eauto ]).
Qed.

(** X3. A schema that [makeValidationForSchemaType] answers with always
    starts with the key that says whether the path may be left out:
    ['optional'] when the path is not required, has a default, is marked
    [validation.optional] or everything is optional, and ['notEmpty']
    otherwise; what the instance validator adds comes after it. Without an
    instance validator the schema is that key alone, set to [true]. *)
Theorem validation_first_key (schemaType : SchemaType)
    (allOptional_ : JsValue) (schema : JsObject) :
  makeValidationForSchemaType instances schemaType allOptional_ = inr schema ->
  exists v rest,
    schema
    = ((if negb (toBoolean (isRequired schemaType))
           || objectPath_has (options schemaType) "default"
           || toBoolean (objectPath_get2 (options schemaType) "validation"
                           "optional" (JBool false))
           || toBoolean allOptional_
        then "optional" else "notEmpty"), v) :: rest /\
    (instances (instance schemaType) = None -> v = JBool true /\ rest = []).
Proof. apply makeValidationForSchemaType_head. Qed.

(** X4. The validation a controller builds for update never demands a
    field: every entry of the schema built with [allOptional] starts with
    the key ['optional']. *)
Theorem updateValidation_all_optional (name : string)
    (schema : list (string * SchemaType)) (validation : JsObject) :
  updateValidation instances name schema = inr validation ->
  forall k v, In (k, v) validation ->
    exists w rest, v = JObj (("optional", w) :: rest).
Proof.
  unfold updateValidation, makeValidationSchema; cbn [pathPrefix allOptional].
  generalize (if toBoolean name then name +:+ "." else "") as prefix.
  intros prefix.
  assert (Hgen : forall acc,
    (forall k v, In (k, v) acc ->
       exists w rest, v = JObj (("optional", w) :: rest)) ->
    eachPath instances prefix (JBool true) schema acc = inr validation ->
    forall k v, In (k, v) validation ->
      exists w rest, v = JObj (("optional", w) :: rest)).
  { induction schema as [|[path st] schema IH]; intros acc Hacc; cbn.
    - intros [= <-]. exact Hacc.
    - destruct (makeValidationForSchemaType instances st (JBool true))
        as [e|s] eqn:Es; [done|].
      apply IH. intros k v Hin.
      destruct (in_obj_set _ _ _ _ _ Hin) as [[-> ->]|Hin'];
        [|by apply (Hacc k)].
      apply makeValidationForSchemaType_head in Es as (w & rest & -> & _).
      rewrite !orb_true_r. eauto. }
  apply Hgen. intros k v [].
Qed.

(** [obj_get] finds the value of a key that occurs once. *)
Lemma obj_get_in (k : string) (v : JsValue) (o : JsObject) :
  NoDup (Object_keys o) -> In (k, v) o -> obj_get k o = v.
Proof.
  unfold Object_keys.
  induction o as [|[k0 v0] o IH]; cbn; [done|].
  intros [Hk0 Hnd]%NoDup_cons [[= -> ->]|Hin].
  - by rewrite String.eqb_refl.
  - destruct (String.eqb_spec k k0) as [->|Hne]; [|by apply IH].
    exfalso. apply Hk0, list_elem_of_In.
    change k0 with (fst (k0, v)). by apply in_map.
Qed.

(** How the association list of the model grows: the prefix goes before
    every path, and distinct paths give distinct keys. *)
Lemma eachPath_entries (prefix : string) (allOptional_ : JsValue)
    (schema : list (string * SchemaType)) :
  forall acc validation,
    NoDup (map fst schema) ->
    (forall path, In path (map fst schema) ->
       ~ In (prefix +:+ path) (Object_keys acc)) ->
    eachPath instances prefix allOptional_ schema acc = inr validation ->
    exists entries,
      validation = acc ++ entries /\
      Forall2 (fun ps kv =>
        fst kv = prefix +:+ fst ps /\
        exists s, makeValidationForSchemaType instances (snd ps) allOptional_
                  = inr s /\ snd kv = JObj s) schema entries.
Proof.
  induction schema as [|[path st] schema IH]; intros acc validation Hnd Hfresh;
    cbn.
  - intros [= <-]. exists []. by rewrite app_nil_r.
  - destruct (makeValidationForSchemaType instances st allOptional_)
      as [e|s] eqn:Es; [done|].
    cbn in Hnd. apply NoDup_cons in Hnd as [Hpath Hnd].
    rewrite obj_set_fresh by (apply Hfresh; by left).
    intros Hrun. apply IH in Hrun as (entries & -> & Hall); [|done|].
    + exists ((prefix +:+ path, JObj s) :: entries).
      rewrite <- app_assoc. split; [done|]. constructor; [|done]. cbn. eauto.
    + intros p Hp. unfold Object_keys. rewrite map_app, in_app_iff. cbn.
      intros [Hin|[Heq|[]]].
      * apply (Hfresh p); [by right|done].
      * apply append_inj in Heq. subst p.
        by apply Hpath, list_elem_of_In.
Qed.

(** X5. For a schema whose paths are distinct, a validation schema that
    [makeValidationSchema] answers with has one key per path and no other:
    the path behind the prefix ([pathPrefix + '.'], or nothing when there is
    no prefix). Under that key it holds what [makeValidationForSchemaType]
    makes of the schema type of the path. *)
Theorem makeValidationSchema_entries (schema : list (string * SchemaType))
    (opts : Opts) (validation : JsObject) :
  NoDup (map fst schema) ->
  makeValidationSchema instances schema opts = inr validation ->
  let prefix := match pathPrefix opts with
                | Some p => if toBoolean p then p +:+ "." else ""
                | None => ""
                end in
  Object_keys validation ≡ₚ map (fun ps => prefix +:+ fst ps) schema /\
  forall path schemaType, In (path, schemaType) schema ->
    exists s, makeValidationForSchemaType instances schemaType
                (allOptional opts) = inr s /\
              obj_get (prefix +:+ path) validation = JObj s.
Proof.
  intros Hnd Hrun prefix. unfold makeValidationSchema in Hrun.
  fold prefix in Hrun.
  apply eachPath_entries in Hrun as (entries & -> & Hall); auto.
  cbn [app].
  assert (Hkeys : Object_keys entries
                  = map (fun ps => prefix +:+ fst ps) schema).
  { unfold Object_keys.
    induction Hall as [|ps kv schema' entries' [Hk _] _ IH]; cbn; [done|].
    rewrite Hk. f_equal. apply IH. cbn in Hnd.
    by apply NoDup_cons in Hnd as [_ Hnd]. }
  split; [by rewrite Hkeys|].
  assert (Hndk : NoDup (Object_keys entries)).
  { rewrite Hkeys.
    replace (map (fun ps => prefix +:+ fst ps) schema)
      with (map (fun path => prefix +:+ path) (map fst schema))
      by (by rewrite map_map).
    apply NoDup_fmap_2; [|done]. intros a b. apply append_inj. }
  intros path schemaType Hin.
  assert (Hex : exists s,
    makeValidationForSchemaType instances schemaType (allOptional opts)
      = inr s /\ In (prefix +:+ path, JObj s) entries).
  { clear Hkeys Hndk Hnd.
    induction Hall as [|[p t] [k v] schema' entries' [Hk (s & Hs & Hv)] _ IH];
      [destruct Hin|].
    cbn in Hk, Hs, Hv. destruct Hin as [[= -> ->]|Hin].
    - exists s. split; [done|]. left. by rewrite Hk, Hv.
    - destruct (IH Hin) as (s' & Hs' & Hin'). exists s'. split; [done|].
      by right. }
  destruct Hex as (s & Hs & Hin'). exists s. split; [done|].
  by apply obj_get_in.
Qed.

(** X6. [makeValidationSchema] throws exactly when the validator of some
    path throws, and then with the error of the first such path: the paths
    before it were all accepted. *)
Theorem makeValidationSchema_throws (schema : list (string * SchemaType))
    (opts : Opts) (e : Raised) :
  makeValidationSchema instances schema opts = inl e <->
  exists before path schemaType after,
    schema = before ++ (path, schemaType) :: after /\
    makeValidationForSchemaType instances schemaType (allOptional opts)
      = inl e /\
    Forall (fun ps =>
      exists s, makeValidationForSchemaType instances (snd ps)
                  (allOptional opts) = inr s) before.
Proof.
  unfold makeValidationSchema.
  generalize (match pathPrefix opts with
              | Some p => if toBoolean p then p +:+ "." else ""
              | None => ""
              end) as prefix.
  intros prefix. generalize (@nil (string * JsValue)) as acc.
  induction schema as [|[path st] schema IH]; intros acc; cbn.
  - split; [done|]. intros (before & p & t & after & Heq & _).
    by destruct before.
  - destruct (makeValidationForSchemaType instances st (allOptional opts))
      as [e'|s] eqn:Es.
    + split.
      * intros [= <-]. exists [], path, st, schema. auto.
      * intros (before & p & t & after & Heq & He & Hok).
        destruct before as [|[p0 t0] before]; cbn in Heq.
        -- injection Heq as <- <- <-. congruence.
        -- injection Heq as <- <- ->. apply Forall_cons in Hok as [[s Hs] _].
           cbn in Hs. congruence.
    + rewrite IH. split.
      * intros (before & p & t & after & -> & He & Hok).
        exists ((path, st) :: before), p, t, after.
        repeat split; auto. constructor; [|done]. cbn. eauto.
      * intros (before & p & t & after & Heq & He & Hok).
        destruct before as [|[p0 t0] before]; cbn in Heq.
        -- injection Heq as <- <- <-. congruence.
        -- injection Heq as <- <- ->. apply Forall_cons in Hok as [_ Hok].
           exists before, p, t, after. auto.
Qed.

End ValidationSchemaProperties.

(** ** More of [Population] *)

Lemma grows_refl (st : Population.Population) : grows st st.
Proof. split; [done|]. intros plural. split; done. Qed.

Lemma grows_trans (st1 st2 st3 : Population.Population) :
  grows st1 st2 -> grows st2 st3 -> grows st1 st3.
Proof.
  intros [Hf Hp] [Hf' Hp']. split; [by etrans|].
  intros plural. destruct (Hp plural), (Hp' plural). split; by etrans.
Qed.

Section PopulationGrowth.

Import Population.

Context (pluralize : string -> string) (toString : JsValue -> string)
        (_populators : gmap string Populator).

Lemma grows_ensure (plural : string) (st : Population) :
  grows st (ensure plural st).
Proof.
  split; [done|]. intros q.
  by rewrite ids_of_ensure, population_of_ensure.
Qed.

Lemma grows_remaining_ids (populate : Populate) (value : JsValue)
    (plural : string) (st : Population) rem st' :
  remaining_ids toString populate value plural st = (rem, st') ->
  grows st st'.
Proof.
  intros (Hp & Hf & Hq & (pushed & Hi & _) & _)%(remaining_ids_spec pluralize).
  split; [by rewrite Hf|]. intros q. split.
  - destruct (decide (q = plural)) as [->|Hne].
    + rewrite Hi. by apply prefix_app_r.
    + by rewrite Hq.
  - unfold population_of. by rewrite Hp.
Qed.

Lemma grows_record_fetch (f : Fetch) (st : Population) :
  grows st (record_fetch f st).
Proof.
  split; [cbn; by apply prefix_app_r|]. intros q. split; done.
Qed.

Lemma grows_push_model (plural : string) (model : JsValue)
    (st : Population) :
  grows st (push_model plural model st).
Proof.
  split; [done|]. intros q. split; [done|].
  rewrite population_of_push_model. case_decide as E; [|done].
  subst q. by apply prefix_app_r.
Qed.

Lemma populate_grows (fuel : nat) :
  forall (populator : Populator) (data : JsValue) (st : Population),
    grows st
      (fst (_populate pluralize toString _populators fuel populator data st)).
Proof.
  induction fuel as [|fuel IH]; intros populator data st;
    cbn [_populate]; [apply grows_refl|].
  destruct (negb (toBoolean data)); [apply grows_refl|].
  apply (eachOf_preserves (grows st)); [|apply grows_refl].
  intros [path populate] st1 Hst1.
  destruct (negb (toBoolean (prop data path))); [done|].
  set (plural := pluralize (modelName (populate_Model populate))).
  destruct (remaining_ids toString populate (prop data path) plural
              (ensure plural st1)) as [rem st2] eqn:E.
  apply grows_remaining_ids in E.
  assert (H2 : grows st st2).
  { eapply grows_trans; [exact Hst1|].
    eapply grows_trans; [apply grows_ensure|exact E]. }
  destruct rem as [e|[[remaining ids]|]]; [done| |done].
  set (f := {| fetch_plural := plural; fetch_ids := ids;
               fetch_answer := populate_populate populate remaining |}).
  assert (H3 : grows st (record_fetch f st2)).
  { eapply grows_trans; [exact H2|apply grows_record_fetch]. }
  destruct (populate_populate populate remaining) as [err|model]; [done|].
  assert (H4 : grows st (push_model plural model (record_fetch f st2))).
  { eapply grows_trans; [exact H3|apply grows_push_model]. }
  assert (Hrec : forall st0, grows st st0 ->
            grows st
              (fst (populateElement_with _populators
                      (_populate pluralize toString _populators fuel)
                      (getKeyFromModel (populate_Model populate)) model st0))).
  { intros st0 Hst0. unfold populateElement_with.
    destruct (_populators !! _); [|done].
    eapply grows_trans; [exact Hst0|apply IH]. }
  destruct model; try (by apply Hrec).
  unfold populateArray_with.
  destruct (_populators !! _); [|done].
  apply (each_preserves (grows st)); [|done].
  intros x st0 Hst0. eapply grows_trans; [exact Hst0|apply IH].
Qed.

(** X7. [_populate] only adds: whatever it is called with and wherever the
    run stops, the ids known for a collection, the models kept for it and
    the calls made to [populate.populate] are those from before the call,
    in the same order, with the new ones after them. *)
Theorem populate_only_adds (fuel : nat) (populator : Populator)
    (data : JsValue) (st : Population) :
  let st' := fst (_populate pluralize toString _populators fuel populator
                    data st) in
  fetches st `prefix_of` fetches st' /\
  forall plural : string,
    ids_of st plural `prefix_of` ids_of st' plural /\
    population_of st plural `prefix_of` population_of st' plural.
Proof. apply populate_grows. Qed.

Lemma remaining_ids_nonempty (populate : Populate) (value : JsValue)
    (plural : string) (st : Population) remaining ids st' :
  remaining_ids toString populate value plural st
    = (inr (Some (remaining, ids)), st') ->
  ids <> [].
Proof.
  unfold remaining_ids. destruct (populate_accept populate).
  - destruct (negb _); intros [= <- <- <-]. done.
  - destruct (filter_firstTime _ _ _ _) as [[e|result] st2]; [done|].
    destruct result; cbn; [done|]. intros [= <- <- <-]. done.
Qed.

Lemma populate_asks_for_something (fuel : nat) :
  forall (populator : Populator) (data : JsValue) (st : Population),
    asks_for_something st ->
    asks_for_something
      (fst (_populate pluralize toString _populators fuel populator data st)).
Proof.
  induction fuel as [|fuel IH]; intros populator data st Hst;
    cbn [_populate]; [done|].
  destruct (negb (toBoolean data)); [done|].
  apply eachOf_preserves; [|done]. clear st Hst.
  intros [path populate] st Hst.
  destruct (negb (toBoolean (prop data path))); [done|].
  set (plural := pluralize (modelName (populate_Model populate))).
  destruct (remaining_ids toString populate (prop data path) plural
              (ensure plural st)) as [rem st2] eqn:E.
  assert (Hst2 : asks_for_something st2).
  { apply (remaining_ids_spec pluralize) in E as (_ & Hf & _).
    unfold asks_for_something. by rewrite Hf. }
  destruct rem as [e|[[remaining ids]|]]; [done| |done].
  apply remaining_ids_nonempty in E.
  set (f := {| fetch_plural := plural; fetch_ids := ids;
               fetch_answer := populate_populate populate remaining |}).
  assert (H3 : asks_for_something (record_fetch f st2)).
  { unfold asks_for_something; cbn. apply Forall_app. split; [done|].
    by constructor. }
  destruct (populate_populate populate remaining) as [err|model]; [done|].
  assert (H4 : asks_for_something (push_model plural model (record_fetch f st2)))
    by done.
  assert (Hrec : forall st0, asks_for_something st0 ->
            asks_for_something
              (fst (populateElement_with _populators
                      (_populate pluralize toString _populators fuel)
                      (getKeyFromModel (populate_Model populate)) model st0))).
  { intros st0 Hst0. unfold populateElement_with.
    destruct (_populators !! _); [by apply IH|done]. }
  destruct model; try (by apply Hrec).
  unfold populateArray_with.
  destruct (_populators !! _); [|done].
  apply each_preserves; [|done]. intros x st0 Hst0. by apply IH.
Qed.

(** X8. [populate.populate] is never called for nothing: when nothing
    remains to be fetched (the array visitor's filter kept no id) the call
    is skipped, so every call recorded is for at least one id. *)
Theorem populate_never_asks_for_nothing (fuel : nat) (populator : Populator)
    (data : JsValue) (st : Population) :
  Forall (fun f => fetch_ids f <> []) (fetches st) ->
  Forall (fun f => fetch_ids f <> [])
    (fetches (fst (_populate pluralize toString _populators fuel populator
                     data st))).
Proof. apply populate_asks_for_something. Qed.

Lemma has_string_array (populate : Populate) (id : JsValue) :
  populate_accept populate = visitPopulateArray ->
  has_string populate id = true <->
  toString_of toString id = inr (toString id).
Proof.
  unfold has_string. intros ->. destruct id; cbn; split; done.
Qed.

Lemma known_after_filter (plural : string) (value : list JsValue) :
  forall st result st',
    filter_firstTime toString plural value st = (inr result, st') ->
    forall id, In id value ->
      toString_of toString id = inr (toString id) /\
      In (toString id) (ids_of st' plural).
Proof.
  induction value as [|x value IH]; intros st result st' Hrun id Hin;
    [destruct Hin|].
  cbn in Hrun.
  destruct (toString_of toString x) as [e|idStr] eqn:Ex; [done|].
  pose proof Ex as Hx. apply toString_of_inr in Hx. subst idStr.
  destruct (filter_firstTime toString plural value _) as [[e|r] st2] eqn:E;
    [done|].
  injection Hrun as <- <-.
  destruct Hin as [<-|Hin]; [|by eapply IH].
  split; [done|].
  apply (filter_firstTime_spec pluralize) in E
    as (_ & _ & _ & (pushed & Hi & _) & _).
  rewrite Hi. apply in_or_app. left.
  destruct (Z.eqb_spec (indexOf (ids_of st plural) (toString x)) (-1))
    as [Hnew|Hold].
  - rewrite ids_of_push_id, decide_True by done.
    apply in_or_app. right. by left.
  - apply list_elem_of_In.
    destruct (decide (toString x ∈ ids_of st plural)) as [Hk|Hk]; [done|].
    by apply indexOf_not_found in Hk.
Qed.

Lemma known_after_remaining_ids (populate : Populate) (value : JsValue)
    (plural : string) (st : Population) rem st' :
  remaining_ids toString populate value plural st = (inr rem, st') ->
  forall id, In id (ids_in populate value) ->
    has_string populate id = true /\
    In (toString id) (ids_of st' plural).
Proof.
  unfold remaining_ids, ids_in, has_string.
  destruct (populate_accept populate) eqn:Ea.
  - destruct (Z.eqb_spec (indexOf (ids_of st plural) (toString value)) (-1))
      as [Hnew|Hold]; cbn; intros [= <- <-] id [<-|[]]; (split; [done|]).
    + rewrite ids_of_push_id, decide_True by done.
      apply in_or_app. right. by left.
    + apply list_elem_of_In.
      destruct (decide (toString value ∈ ids_of st plural)) as [Hk|Hk];
        [done|]. by apply indexOf_not_found in Hk.
  - destruct (filter_firstTime toString plural (collection_items value) st)
      as [[e|result] st2] eqn:E; [done|].
    intros [= <- <-] id Hx.
    destruct (known_after_filter _ _ _ _ _ E id Hx) as [Hs Hk].
    split; [|done]. destruct id; cbn in *; done.
Qed.

Lemma filter_nothing_new (plural : string) (value : list JsValue)
    (st : Population) :
  (forall id, In id value ->
     toString_of toString id = inr (toString id) /\
     In (toString id) (ids_of st plural)) ->
  filter_firstTime toString plural value st = (inr [], st).
Proof.
  induction value as [|x value IH]; intros Hknown; cbn; [done|].
  destruct (Hknown x) as [-> Hx]; [by left|].
  destruct (Z.eqb_spec (indexOf (ids_of st plural) (toString x)) (-1))
    as [Hnew|Hold].
  - apply indexOf_not_found in Hnew. destruct Hnew.
    by apply list_elem_of_In.
  - rewrite IH; [done|]. intros id Hin. apply Hknown. by right.
Qed.

Lemma remaining_ids_nothing_new (populate : Populate) (value : JsValue)
    (plural : string) (st : Population) :
  (forall id, In id (ids_in populate value) ->
     has_string populate id = true /\
     In (toString id) (ids_of st plural)) ->
  remaining_ids toString populate value plural st = (inr None, st).
Proof.
  unfold remaining_ids, ids_in.
  destruct (populate_accept populate) eqn:Ea; intros Hknown.
  - destruct (Z.eqb_spec (indexOf (ids_of st plural) (toString value)) (-1))
      as [Hnew|Hold]; [|done].
    apply indexOf_not_found in Hnew. destruct Hnew.
    apply list_elem_of_In, Hknown. by left.
  - rewrite filter_nothing_new; [done|].
    intros id Hin. destruct (Hknown id Hin) as [Hs Hk]. split; [|done].
    by apply (has_string_array populate).
Qed.

Lemma grows_known (st st' : Population) (plural id : string) :
  grows st st' -> In id (ids_of st plural) -> In id (ids_of st' plural).
Proof.
  intros [_ H] Hin. destruct (H plural) as [[k ->] _].
  apply in_or_app. by left.
Qed.

(** A populator is gone through entry by entry. *)
Lemma populate_cons (fuel : nat) (entry : string * Populate)
    (rest : Populator) (data : JsValue) (st : Population) :
  toBoolean data = true ->
  _populate pluralize toString _populators (S fuel) (entry :: rest) data st
  = match _populate pluralize toString _populators (S fuel) [entry] data st
    with
    | (st1, Done) =>
        _populate pluralize toString _populators (S fuel) rest data st1
    | r => r
    end.
Proof.
  intros Ht. cbn [_populate].
  destruct (negb (toBoolean data)) eqn:E.
  { rewrite Ht in E. discriminate. }
  cbn [eachOf].
  match goal with
  | |- (let (_, _) := ?t in _) = _ => destruct t as [st1 []]
  end; reflexivity.
Qed.

(** What follows the fetch only adds. *)
Lemma descend_grows (fuel : nat) (key : string) (model : JsValue)
    (st : Population) :
  grows st
    (fst (match model with
          | JArr arr =>
              populateArray_with _populators
                (_populate pluralize toString _populators fuel) key arr st
          | _ =>
              populateElement_with _populators
                (_populate pluralize toString _populators fuel) key model st
          end)).
Proof.
  assert (Hrec : grows st
            (fst (populateElement_with _populators
                    (_populate pluralize toString _populators fuel)
                    key model st))).
  { unfold populateElement_with.
    destruct (_populators !! _); [apply populate_grows|apply grows_refl]. }
  destruct model; try exact Hrec.
  unfold populateArray_with.
  destruct (_populators !! _); [|apply grows_refl].
  apply (each_preserves (grows st)); [|apply grows_refl].
  intros x st0 Hst0. eapply grows_trans; [exact Hst0|apply populate_grows].
Qed.

(** After one entry that went through, the ids it reads off [data] have a
    string and are known. *)
Lemma known_after_entry (fuel : nat) (path : string) (populate : Populate)
    (data : JsValue) (st : Population) :
  toBoolean data = true ->
  toBoolean (prop data path) = true ->
  snd (_populate pluralize toString _populators (S fuel)
         [(path, populate)] data st) = Done ->
  forall id, In id (ids_in populate (prop data path)) ->
    has_string populate id = true /\
    In (toString id)
       (ids_of
          (fst (_populate pluralize toString _populators (S fuel)
                  [(path, populate)] data st))
          (pluralize (modelName (populate_Model populate)))).
Proof.
  intros Hd Hv. cbn [_populate].
  destruct (negb (toBoolean data)) eqn:E; [rewrite Hd in E; discriminate|].
  cbn [eachOf].
  destruct (negb (toBoolean (prop data path))) eqn:E';
    [rewrite Hv in E'; discriminate|].
  set (plural := pluralize (modelName (populate_Model populate))).
  destruct (remaining_ids toString populate (prop data path) plural
              (ensure plural st)) as [rem st2] eqn:Er.
  destruct rem as [e|rem]; [discriminate|].
  intros Hdone id Hid.
  destruct (known_after_remaining_ids _ _ _ _ _ _ Er id Hid) as [Hs Hknown].
  split; [done|]. clear Hdone.
  destruct rem as [[remaining ids]|]; [|done].
  destruct (populate_populate populate remaining) as [err|model] eqn:Ea;
    [done|].
  match goal with
  | |- In _ (ids_of (fst (let (_, _) := ?t in _)) _) =>
      assert (Hg : grows st2 (fst t)); [|destruct t as [st3 []]]
  end.
  { eapply grows_trans; [apply grows_record_fetch|].
    eapply grows_trans; [apply grows_push_model|].
    apply descend_grows. }
  all: by apply (grows_known st2).
Qed.

Lemma covered_after_run (fuel : nat) (data : JsValue) :
  toBoolean data = true ->
  forall (populator : Populator) (st : Population),
    snd (_populate pluralize toString _populators (S fuel) populator data st)
      = Done ->
    covered pluralize toString populator data
      (fst (_populate pluralize toString _populators (S fuel) populator data
              st)).
Proof.
  intros Hd. induction populator as [|[path populate] rest IH]; intros st.
  - intros _ p q [].
  - rewrite populate_cons by done.
    pose proof (known_after_entry fuel path populate data st Hd) as Hhead.
    destruct (_populate pluralize toString _populators (S fuel)
                [(path, populate)] data st) as [st1 s1] eqn:E1.
    destruct s1; try (cbn; discriminate).
    intros Hdone p q [[= <- <-]|Hin] Hv id Hid.
    + destruct (Hhead Hv eq_refl id Hid) as [Hs Hk]. split; [done|].
      eapply grows_known; [apply (populate_grows (S fuel))|]. done.
    + by apply (IH st1 Hdone p q).
Qed.

Lemma same_contents_refl (st : Population) : same_contents st st.
Proof. split; [done|]. intros plural. split; done. Qed.

Lemma same_contents_ensure (plural : string) (st : Population) :
  same_contents st (ensure plural st).
Proof.
  split; [done|]. intros q. by rewrite ids_of_ensure, population_of_ensure.
Qed.

Lemma same_contents_trans (st1 st2 st3 : Population) :
  same_contents st1 st2 -> same_contents st2 st3 -> same_contents st1 st3.
Proof.
  intros [Hf Hp] [Hf' Hp']. split; [congruence|].
  intros plural. destruct (Hp plural), (Hp' plural). split; congruence.
Qed.

Lemma covered_same (populator : Populator) (data : JsValue)
    (st st' : Population) :
  same_contents st st' ->
  covered pluralize toString populator data st ->
  covered pluralize toString populator data st'.
Proof.
  intros [_ Hs] Hc path populate Hin Hv id Hid.
  destruct (Hs (pluralize (modelName (populate_Model populate)))) as [-> _].
  by apply (Hc path populate).
Qed.

Lemma covered_nothing_to_do (fuel : nat) (data : JsValue) :
  forall (populator : Populator) (st : Population),
    covered pluralize toString populator data st ->
    snd (_populate pluralize toString _populators (S fuel) populator data st)
      = Done /\
    same_contents st
      (fst (_populate pluralize toString _populators (S fuel) populator data
              st)).
Proof.
  destruct (toBoolean data) eqn:Hd.
  2:{ intros populator st _. cbn [_populate].
      destruct (negb (toBoolean data)) eqn:E; [|rewrite Hd in E; discriminate].
      split; [done|apply same_contents_refl]. }
  induction populator as [|[path populate] rest IH]; intros st Hc.
  - cbn [_populate].
    destruct (negb (toBoolean data)); (split; [done|apply same_contents_refl]).
  - rewrite populate_cons by done.
    assert (Hone : exists st1,
              _populate pluralize toString _populators (S fuel)
                [(path, populate)] data st = (st1, Done) /\
              same_contents st st1).
    { cbn [_populate].
      destruct (negb (toBoolean data)) eqn:E; [rewrite Hd in E; discriminate|].
      cbn [eachOf].
      destruct (negb (toBoolean (prop data path))) eqn:Hv.
      - exists st. split; [done|apply same_contents_refl].
      - apply negb_false_iff in Hv.
        rewrite remaining_ids_nothing_new.
        + eexists. split; [done|apply same_contents_ensure].
        + intros id Hid. rewrite ids_of_ensure.
          apply (Hc path populate); [by left|done|done]. }
    destruct Hone as (st1 & -> & Hsame).
    destruct (IH st1) as [Hdone Hrest].
    { eapply covered_same; [exact Hsame|].
      intros p q Hin. apply Hc. by right. }
    split; [done|]. by eapply same_contents_trans.
Qed.

(** X9. Populating the same document again asks the database for nothing:
    after a run of [_populate] that went through, a second run with the same
    populator and document goes through as well, makes no call to
    [populate.populate], and leaves the ids and the models of every
    collection as they were. *)
Theorem populate_again_fetches_nothing (fuel fuel' : nat)
    (populator : Populator) (data : JsValue) (st : Population) :
  snd (_populate pluralize toString _populators fuel populator data st)
    = Done ->
  let st1 := fst (_populate pluralize toString _populators fuel populator
                    data st) in
  let again := _populate pluralize toString _populators (S fuel') populator
                 data st1 in
  snd again = Done /\
  fetches (fst again) = fetches st1 /\
  forall plural : string,
    ids_of (fst again) plural = ids_of st1 plural /\
    population_of (fst again) plural = population_of st1 plural.
Proof.
  intros Hdone st1 again. subst again.
  apply covered_nothing_to_do. subst st1.
  destruct fuel as [|fuel]; [discriminate Hdone|].
  destruct (toBoolean data) eqn:Hd; [by apply covered_after_run|].
  intros path populate _ Hv.
  destruct data; cbn in Hd, Hv; discriminate.
Qed.

Lemma filter_firstTime_hole (plural : string) (value : list JsValue) :
  (In JNull value \/ In JUndefined value) ->
  forall st, exists what st',
    filter_firstTime toString plural value st = (inl (TypeError what), st').
Proof.
  induction value as [|id value IH]; intros Hhole st; [by destruct Hhole|].
  cbn [filter_firstTime].
  destruct (toString_of toString id) as [e|idStr] eqn:Eid.
  - destruct id; cbn in Eid; try discriminate; injection Eid as <-; eauto.
  - assert (Hrest : In JNull value \/ In JUndefined value).
    { destruct Hhole as [[->|?]|[->|?]]; auto; discriminate Eid. }
    match goal with
    | |- context [filter_firstTime toString plural value ?s] =>
        destruct (IH Hrest s) as (what & st' & ->)
    end. eauto.
Qed.

(** X11. A hole among the references is an exception: when the value under
    the first path of a populator is an array that holds [null] or
    [undefined] and the populate object visits arrays, [_populate] raises a
    [TypeError] out of the filter, before [populate.populate] is called and
    before the other paths are looked at. Nothing is fetched and no model is
    kept; the ids the filter pushed before it met the hole stay known. *)
Theorem populate_throws_on_a_hole (fuel : nat) (path : string)
    (populate : Populate) (rest : Populator) (data : JsValue)
    (items : list JsValue) (st : Population) :
  populate_accept populate = visitPopulateArray ->
  prop data path = JArr items ->
  In JNull items \/ In JUndefined items ->
  let run := _populate pluralize toString _populators (S fuel)
               ((path, populate) :: rest) data st in
  (exists what, snd run = Thrown (TypeError what)) /\
  fetches (fst run) = fetches st /\
  forall plural : string,
    population_of (fst run) plural = population_of st plural /\
    ids_of st plural `prefix_of` ids_of (fst run) plural.
Proof.
  intros Ha Hv Hhole run. subst run.
  assert (Hd : toBoolean data = true).
  { destruct data; cbn in Hv; try discriminate Hv; reflexivity. }
  cbn [_populate]. rewrite Hd. cbn [negb eachOf]. rewrite Hv.
  change (negb (toBoolean (JArr items))) with false. cbv iota.
  set (plural := pluralize (modelName (populate_Model populate))).
  destruct (remaining_ids toString populate (JArr items) plural
              (ensure plural st)) as [rem st2] eqn:E.
  pose proof (grows_remaining_ids _ _ _ _ _ _ E) as Hg.
  pose proof E as Hs.
  apply (remaining_ids_spec pluralize) in Hs as (Hp & Hf & _).
  unfold remaining_ids in E. rewrite Ha in E. cbn [collection_items] in E.
  destruct (filter_firstTime_hole plural items Hhole (ensure plural st))
    as (what & st' & Efilter).
  rewrite Efilter in E. injection E as <- <-. cbn [fst snd].
  split; [eauto|]. split; [by rewrite Hf|].
  intros q. split.
  - unfold population_of at 1. rewrite Hp.
    apply population_of_ensure.
  - destruct Hg as [_ Hg]. destruct (Hg q) as [Hi _].
    by rewrite ids_of_ensure in Hi.
Qed.

End PopulationGrowth.

Lemma flatten_value_flat (v : JsValue) :
  Forall (fun x => is_array x = false) (flatten_value v).
Proof.
  revert v. fix IH 1.
  intros [| |b|n| |s|items|fields]; cbn;
    try (constructor; [reflexivity|constructor]).
  induction items as [|x items IHitems]; [constructor|].
  apply Forall_app. split; [apply IH|apply IHitems].
Qed.

Lemma _flatten_concat (array : list JsValue) :
  _flatten array = concat (map flatten_value array).
Proof.
  unfold _flatten. cbn. induction array as [|x array IH]; cbn; [done|].
  by rewrite IH.
Qed.

Lemma _flatten_of_flat (array : list JsValue) :
  Forall (fun x => is_array x = false) array -> _flatten array = array.
Proof.
  rewrite _flatten_concat. induction 1 as [|x array Hx _ IH]; cbn; [done|].
  rewrite IH. by destruct x.
Qed.

Lemma flatten_value_documents (model : JsValue) :
  Forall (fun d => is_array d = false) (documents_of model) ->
  flatten_value model = documents_of model.
Proof.
  destruct model; try done. cbn [documents_of]. apply _flatten_of_flat.
Qed.

(** X10. [flatten] answers an object with the keys of [population], and
    under each key a flat list: no element of it is an array, however deeply
    the models kept were nested. When every model kept is a document or an
    array of documents, the list is those documents in the order they were
    fetched. *)
Theorem flatten_is_flat (st : Population.Population) (plural : string) :
  (is_Some (Population_flatten st !! plural)
   <-> is_Some (Population.population st !! plural)) /\
  forall values,
    Population_flatten st !! plural = Some values ->
    Forall (fun v => is_array v = false) values /\
    (Forall (fun model =>
       Forall (fun d => is_array d = false) (documents_of model))
       (Population.population_of st plural) ->
     values = concat (map documents_of (Population.population_of st plural))).
Proof.
  unfold Population_flatten, Population.population_of.
  rewrite lookup_fmap. split; [apply fmap_is_Some|].
  intros values.
  destruct (Population.population st !! plural) as [models|]; [|done].
  intros Hv. assert (values = _flatten models) as -> by (by injection Hv). split; [exact (flatten_value_flat (JArr models))|].
  change (default [] (Some models)) with models.
  intros Hdocs. rewrite _flatten_concat. f_equal.
  induction Hdocs as [|model rest Hm _ IH]; cbn; [done|].
  by rewrite IH, flatten_value_documents.
Qed.

(** ** More of the resource controller *)

Section MoreProperties.

Context (rt : Runtime) (db : Database) (self : Controller).

Import ResourceController.

Ltac unfold_run :=
  unfold run, create, get, getAll, update, delete, count;
  unfold create_execute, get_execute, getAll_execute, update_execute,
    delete_execute, count_execute, wrap_and_populate, resolveModel,
    processHeaders, processIfModifiedSince, setHeaders;
  cbv zeta.

Ltac handler_facts :=
  repeat match goal with
  | H : makeDbCompletionHandler _ _ _ = inl _ |- _ =>
      apply makeDbCompletionHandler_inl in H
  | H : makeDbCompletionHandler _ _ _ = inr _ |- _ =>
      apply makeDbCompletionHandler_inr in H; destruct H as (? & ? & ?)
  end.

(** X12. create, get and update date their answer: once the database has
    answered with a document, the [Last-Modified] header is set, once, to
    the UTC string of its [getLastModified ()], whatever happens afterwards
    (in get also when the request is then answered 304, and in all three
    when [postExecute] fails). *)
Theorem last_modified_of_document (a : Action)
    (opts : Hooks (result_type a)) (req : Request) (c : DbCommand)
    (doc : Document) :
  a = aCreate \/ a = aGet \/ a = aUpdate ->
  In c (db_calls (fst (run rt db self a opts req))) ->
  db_err db c = None ->
  db_document db c = Some doc ->
  headers_set (fst (run rt db self a opts req))
  = [(HttpHeader.LAST_MODIFIED, toUTCString rt (doc_lastModified doc))].
Proof.
  intros [->|[->| ->]]; unfold_run; by_wp; wp_run; cbn;
    intros Hc He Hd; try contradiction;
    destruct Hc as [<-|[]]; handler_facts; cbn in *;
    rewrite ?He, ?Hd in *; cbn in *; try discriminate;
    repeat match goal with
    | H : Some _ = Some _ |- _ => injection H as H
    end; subst; try reflexivity.
Qed.

(** X13. A header is set on the response only after the database has
    answered with a result, and never by delete or count: a run that sets
    one is a run of create, get, getAll or update whose database command
    neither failed nor came back empty. *)
Theorem headers_need_a_result (a : Action) (opts : Hooks (result_type a))
    (req : Request) :
  headers_set (fst (run rt db self a opts req)) <> [] ->
  a <> aDelete /\ a <> aCount /\
  exists c, In c (db_calls (fst (run rt db self a opts req))) /\
            db_unsuccessful db c = false.
Proof.
  destruct a; unfold_run; by_wp; wp_run; cbn; intros Hh; try done;
    (split; [done|]); (split; [done|]); eexists; (split; [by left|]);
    handler_facts; unfold db_unsuccessful, db_result_falsy; cbn in *;
    repeat match goal with
    | H : toBoolean _ = _ |- _ => rewrite H
    end; reflexivity.
Qed.

(** In create and in update the body is checked before the authorize
    hook: when [req.validationErrors ()] is truthy, validation fails with
    those errors and the hook is not invoked; when it is falsy the answer of
    validation is the answer of the hook. For update this is for a request
    that carries a resource id. *)
Theorem body_is_checked_first (opts : Hooks Document) (req : Request) :
  (toBoolean (validationErrors rt false req) = true ->
   create_validate rt opts req
   = ([CheckBody false], inl (JsError (validationErrors rt false req)))) /\
  (toBoolean (validationErrors rt false req) = false ->
   create_validate rt opts req
   = ([CheckBody false; CallHook hAuthorize],
      or_else (authorize opts) __onAuthorize req)) /\
  (toBoolean (obj_get (_id self) (params req)) = true ->
   (toBoolean (validationErrors rt true req) = true ->
    update_validate rt self opts req
    = ([CheckBody true], inl (JsError (validationErrors rt true req)))) /\
   (toBoolean (validationErrors rt true req) = false ->
    update_validate rt self opts req
    = ([CheckBody true; CallHook hAuthorize],
       or_else (authorize opts) __onAuthorize req))).
Proof.
  unfold create_validate, update_validate, checkIdThenAuthorize, check_body,
    call.
  split; [|split].
  - intros ->. reflexivity.
  - intros ->. cbn. by destruct (or_else (authorize opts) __onAuthorize req).
  - intros ->. cbn [negb]. split; intros ->; cbn; [reflexivity|].
    by destruct (or_else (authorize opts) __onAuthorize req).
Qed.


(** X15. delete answers [true] and nothing else: whenever it responds, the
    status is 200 and the body is [true], whatever [postExecute] called back
    with, and a document was removed by the one command it issued. *)
Theorem delete_answers_true (opts : Hooks Document) (req : Request)
    (status : Z) (json : Data) :
  snd (delete db self opts req) = Responded status json ->
  status = 200 /\ json = DBool true /\
  exists filter doc,
    db_calls (fst (delete db self opts req)) = [FindOneAndRemove filter] /\
    Model_findOneAndRemove db filter = (None, Some doc).
Proof.
  unfold_run. by_wp. wp_run; cbn; intros Hr; try discriminate.
  injection Hr as <- <-. split; [done|]. split; [done|].
  handler_facts. cbn in *.
  match goal with
  | H : Some ?d = _ |- _ => eexists _, d
  end.
  split; [reflexivity|].
  destruct (Model_findOneAndRemove db _) as [[err|] [res|]]; cbn in *;
    try discriminate; congruence.
Qed.

End MoreProperties.

(** ** More of the earlier revision *)

Lemma obj_get_delete_eq (k : string) (o : JsObject) :
  obj_get k (obj_delete k o) = JUndefined.
Proof.
  induction o as [|[k0 v0] o IH]; cbn; [done|].
  destruct (String.eqb k k0) eqn:E; cbn; [done|]. by rewrite E.
Qed.

Lemma obj_get_delete_ne (k k' : string) (o : JsObject) :
  k <> k' -> obj_get k (obj_delete k' o) = obj_get k o.
Proof.
  intros Hne. induction o as [|[k0 v0] o IH]; cbn; [done|].
  destruct (String.eqb_spec k' k0) as [->|Hne']; cbn.
  - rewrite IH. by destruct (String.eqb_spec k k0).
  - by rewrite IH.
Qed.

Lemma obj_get_copy_eq (k : string) (src : JsValue) (dst : JsObject) :
  toBoolean (prop src k) = true ->
  obj_get k (copy_if_truthy k src dst) = prop src k.
Proof. unfold copy_if_truthy. intros ->. apply obj_get_set_eq. Qed.

Lemma obj_get_copy_ne (k k' : string) (src : JsValue) (dst : JsObject) :
  k <> k' -> obj_get k (copy_if_truthy k' src dst) = obj_get k dst.
Proof.
  unfold copy_if_truthy. intros Hne.
  destruct (toBoolean (prop src k')); [by apply obj_get_set_ne|done].
Qed.

Section LegacyProperties.

Context (rt : Runtime) (db : Database) (self : Controller).

(** X16. In the earlier revision the paging of the query string reaches the
    database: whatever the hooks answer, each of [skip], [limit] and [sort]
    that is truthy in [req.query.options] is, with its value, among the
    options every [find] of getAll is called with. *)
Theorem legacy_getAll_pages (opts : Legacy.Hooks (list Document))
    (req : Request) (filter projection options : JsValue) (k : string) :
  In (Find filter projection options)
     (db_calls (fst (Legacy.getAll rt db self opts req))) ->
  k = "skip" \/ k = "limit" \/ k = "sort" ->
  toBoolean (prop (query_options req) k) = true ->
  prop options k = prop (query_options req) k.
Proof.
  intros Hc Hk Ht. revert Hc.
  unfold Legacy.getAll, Legacy.getAll_execute, Legacy.warn_deprecated;
      cbv zeta. by_wp.
  wp_run; cbn; intros Hc; try contradiction;
    destruct Hc as [Hc|[]]; injection Hc as _ _ <-;
    change (prop (JObj ?o) k) with (obj_get k o);
    destruct Hk as [->|[->| ->]];
    rewrite ?obj_get_copy_eq by done;
    rewrite ?(obj_get_copy_ne "skip" "sort"),
            ?(obj_get_copy_ne "skip" "limit"),
            ?(obj_get_copy_ne "limit" "sort") by done;
    by rewrite ?obj_get_copy_eq by done.
Qed.

(** X17. With the default filter hook, the filter getAll hands to [find]
    is the query string without its paging: it holds no truthy [options]
    (none at all in the earlier revision), and every other key of the query
    with its value. *)
Theorem getAll_filter_is_the_query (req : Request)
    (filter projection options : JsValue) (k : string) :
  (forall opts : Hooks (list Document),
     updateFilter opts = None -> prepareFilter opts = None ->
     In (Find filter projection options)
        (db_calls (fst (ResourceController.getAll rt db self opts req))) ->
     toBoolean (prop filter "options") = false /\
     (k <> "options" -> prop filter k = obj_get k (query req))) /\
  (forall opts : Legacy.Hooks (list Document),
     Legacy.updateFilter opts = None -> Legacy.prepareFilter opts = None ->
     In (Find filter projection options)
        (db_calls (fst (Legacy.getAll rt db self opts req))) ->
     prop filter "options" = JUndefined /\
     (k <> "options" -> prop filter k = obj_get k (query req))).
Proof.
  split.
  - intros opts H1 H2 Hc.
    rewrite (getAll_filter_without_options rt db self opts req _ _ _ H1 H2 Hc).
    change (prop (JObj ?o) ?x) with (obj_get x o).
    unfold without_options.
    destruct (toBoolean (obj_get "options" (query req))) eqn:E; cbn.
    + rewrite obj_get_delete_eq. split; [done|].
      intros Hne. by apply obj_get_delete_ne.
    + by rewrite E.
  - intros opts H1 H2. unfold Legacy.getAll, Legacy.getAll_execute, Legacy.warn_deprecated;
      cbv zeta.
    rewrite H1, H2. by_wp.
    wp_run; cbn; intros Hc; try contradiction;
      destruct Hc as [Hc|[]]; injection Hc as <- _ _;
      unfold __onUpdateFilter in *; cbn in *;
      match goal with
      | H : inr _ = inr _ |- _ => injection H as <-
      end;
      change (prop (JObj ?o) ?x) with (obj_get x o);
      (split; [apply obj_get_delete_eq|intros Hne; by apply obj_get_delete_ne]).
Qed.

(** X18. The earlier revision hides the version key of a document whenever
    the projection the hook answers is exclusive: getAll then asks for
    [__v: 0] whatever the hook said about [__v], update adds [__v: 0] when
    the hook left [__v] undefined and keeps the hook's value otherwise. A
    projection that is not exclusive reaches the database as the hook
    answered it. *)
Theorem legacy_projection_hides_version (req : Request) (user : JsObject) :
  (forall (opts : Legacy.Hooks (list Document)) filter projection options,
     or_else (Legacy.prepareProjection opts) Legacy.__onPrepareProjection req
       = inr user ->
     In (Find filter projection options)
        (db_calls (fst (Legacy.getAll rt db self opts req))) ->
     (isProjectionExclusive user = true -> prop projection "__v" = JNum 0) /\
     (isProjectionExclusive user = false -> projection = JObj user)) /\
  (forall (opts : Legacy.Hooks Document) filter upd options,
     or_else (Legacy.prepareProjection opts) Legacy.__onPrepareProjection req
       = inr user ->
     In (FindOneAndUpdate filter upd options)
        (db_calls (fst (Legacy.update db self opts req))) ->
     (isProjectionExclusive user = true ->
      prop (prop options "fields") "__v"
      = if Legacy.is_undefined (obj_get "__v" user) then JNum 0
        else obj_get "__v" user) /\
     (isProjectionExclusive user = false ->
      prop options "fields" = JObj user)).
Proof.
  split.
  - intros opts filter projection options Hu.
    unfold Legacy.getAll, Legacy.getAll_execute, Legacy.warn_deprecated;
      cbv zeta. rewrite Hu. by_wp.
    wp_run; cbn; intros Hc; try contradiction;
      destruct Hc as [Hc|[]]; injection Hc as _ <- _;
      (split; intros ->; [apply obj_get_set_eq|reflexivity]).
  - intros opts filter upd options Hu.
    unfold Legacy.update, Legacy.update_execute, Legacy.warn_deprecated;
      cbv zeta. rewrite Hu. by_wp.
    wp_run; cbn; intros Hc; try contradiction;
      destruct Hc as [Hc|[]]; injection Hc as _ _ <-;
      (split; intros ->; cbn; [|reflexivity]);
      (destruct (Legacy.is_undefined (obj_get "__v" user));
       cbn; [apply obj_get_set_eq|reflexivity]).
Qed.

Lemma wp_task {A} (m : M A) (P : M A -> Prop) :
  wp m (fun l r => P (l, r)) -> P m.
Proof. unfold wp. by destruct m. Qed.

(** X19. getFirst asks for one document without its version key, and
    throws the answer of its filter hook away when the query string has
    options: the filter of its [find] is then the query without [options];
    only a query without options is filtered as the hook answered. *)
Theorem getFirst_filter (opts : Legacy.Hooks (list Document)) (req : Request)
    (filter projection options : JsValue) :
  In (Find filter projection options)
     (db_calls (effects (LegacyGetFirst.getFirst_execute db self opts req))) ->
  projection = JObj [("__v", JNum 0)] /\
  prop options "limit" = JNum 1 /\
  (toBoolean (obj_get "options" (query req)) = true ->
   filter = JObj (obj_delete "options" (query req))) /\
  (toBoolean (obj_get "options" (query req)) = false ->
   or_else (Legacy.updateFilter opts)
     (or_else (Legacy.prepareFilter opts) __onUpdateFilter) req
     (JObj (query req)) = inr filter).
Proof.
  unfold LegacyGetFirst.getFirst_execute, Legacy.warn_deprecated, effects;
    cbv zeta.
  match goal with
  | |- context [fst ?m] => pattern m; apply wp_task
  end; cbv beta.
  wp_run; cbn; intros Hc; try contradiction;
    destruct Hc as [Hc|[]]; injection Hc as <- <- <-;
    (split; [reflexivity|]);
    (split; [change (prop (JObj ?o) ?x) with (obj_get x o);
             by rewrite obj_get_copy_ne by done|]);
    (split; intros Ht; rewrite Ht in *; try reflexivity; try discriminate;
     done).
Qed.

(** X20. getFirst does not answer 404 when nothing matches: the empty array
    the database answers with is truthy, so the waterfall goes on and, when
    [postExecute] hands the array on, ends with [{ [name]: undefined }]. A
    failing database call is answered 400 with the message of count,
    ['Failed to count resources']. *)
Theorem getFirst_nothing_found (opts : Legacy.Hooks (list Document))
    (req : Request) (filter projection options : JsValue) :
  In (Find filter projection options)
     (db_calls (effects (LegacyGetFirst.getFirst_execute db self opts req))) ->
  (Model_find db filter projection options = (None, Some []) ->
   forall data,
     or_else (Legacy.postExecute opts) __onPostExecute req [] = inr data ->
     snd (LegacyGetFirst.getFirst_execute db self opts req)
     = inr (_name self, head data)) /\
  (toBoolean (fst (Model_find db filter projection options)) = true ->
   snd (LegacyGetFirst.getFirst_execute db self opts req)
   = inl (HttpError 400 "Failed to count resources")).
Proof.
  unfold LegacyGetFirst.getFirst_execute, Legacy.warn_deprecated, effects;
    cbv zeta.
  match goal with
  | |- context [fst ?m] => pattern m; apply wp_task
  end; cbv beta.
  wp_run; cbn; intros Hc; try contradiction;
    destruct Hc as [Hc|[]]; injection Hc as <- <- <-;
    (split; [intros Hdb data Hpost|intros He]);
    repeat match goal with
    | H : makeDbCompletionHandler _ _ _ = inl _ |- _ =>
        apply makeDbCompletionHandler_inl in H
    | H : makeDbCompletionHandler _ _ _ = inr _ |- _ =>
        apply makeDbCompletionHandler_inr in H; destruct H as (? & ? & ?)
    end;
    rewrite ?Hdb, ?He in *; cbn in *; try discriminate; congruence.
Qed.

End LegacyProperties.

(** ** The further statements at work on the samples *)

Lemma Number_schema_witness :
  NumberValidator.Number SampleSchema.format SampleSchema.age_type
  = inr [("isInt",
          JObj [("errorMessage", JStr "Invalid/missing Int");
                ("options", JObj [("min", JNum 0)])])].
Proof.
  refine (Number_schema SampleSchema.format SampleSchema.age_type
            SampleSchema.age_validation "Int" _ _ _).
  - reflexivity.
  - reflexivity.
  - right. right. left. reflexivity.
Defined.

Example Number_rejects_double :
  NumberValidator.Number SampleSchema.format SampleSchema.ratio_type
  = inl (RaisedError "Invalid number kind: Double").
Proof. reflexivity. Qed.

Lemma validation_first_key_witness :
  exists v rest,
    [("notEmpty", JBool true);
     ("isInt", JObj [("errorMessage", JStr "Invalid/missing Int");
                     ("options", JObj [("min", JNum 0)])])]
    = ("notEmpty", v) :: rest.
Proof.
  destruct (validation_first_key SampleSchema.instances SampleSchema.age_type
              JUndefined _ eq_refl) as (v & rest & H & _).
  exists v, rest. exact H.
Defined.

Lemma updateValidation_all_optional_witness :
  exists w rest,
    JObj [("optional", JBool true);
          ("isInt", JObj [("errorMessage", JStr "Invalid/missing Int");
                          ("options", JObj [("min", JNum 0)])])]
    = JObj (("optional", w) :: rest).
Proof.
  refine (updateValidation_all_optional SampleSchema.instances "person"
            SampleSchema.person _ eq_refl "person.age" _ _).
  right. left. reflexivity.
Defined.

Lemma makeValidationSchema_entries_witness :
  NoDup (map fst SampleSchema.person) /\
  exists s,
    ValidationSchema.makeValidationForSchemaType SampleSchema.instances
      SampleSchema.age_type JUndefined = inr s /\
    obj_get "person.age"
      [("person.name", JObj [("notEmpty", JBool true)]);
       ("person.age",
        JObj [("notEmpty", JBool true);
              ("isInt", JObj [("errorMessage", JStr "Invalid/missing Int");
                              ("options", JObj [("min", JNum 0)])])]);
       ("person.score", JObj [("optional", JBool true)])]
    = JObj s.
Proof.
  assert (Hnd : NoDup (map fst SampleSchema.person)).
  { cbn.
    repeat (constructor;
            [rewrite ?elem_of_cons, elem_of_nil; intuition discriminate|]).
    constructor. }
  split; [exact Hnd|].
  refine (proj2 (makeValidationSchema_entries SampleSchema.instances
                   SampleSchema.person
                   {| ValidationSchema.pathPrefix := Some "person";
                      ValidationSchema.allOptional := JUndefined |} _ Hnd
                   eq_refl)
            "age" SampleSchema.age_type _).
  right. left. reflexivity.
Defined.

Example schema_with_a_bad_kind_throws :
  ValidationSchema.createValidation SampleSchema.instances "person"
    (SampleSchema.person ++ [("ratio", SampleSchema.ratio_type)])
  = inl (RaisedError "Invalid number kind: Double").
Proof. reflexivity. Qed.

Lemma populate_never_asks_for_nothing_witness :
  Forall (fun f => Population.fetch_ids f <> [])
    (Population.fetches Population.new_Population) /\
  Forall (fun f => Population.fetch_ids f <> [])
    (Population.fetches Sample.populated).
Proof.
  assert (H0 : Forall (fun f => Population.fetch_ids f <> [])
                 (Population.fetches Population.new_Population))
    by constructor.
  split; [exact H0|].
  exact (populate_never_asks_for_nothing Sample.plural_s Sample.id_toString
           Sample.populators 4 Sample.user_populator Sample.carol
           Population.new_Population H0).
Defined.

Lemma populate_again_fetches_nothing_witness :
  snd (Population._populate Sample.plural_s Sample.id_toString
         Sample.populators 4 Sample.user_populator Sample.carol
         Population.new_Population) = Population.Done /\
  Population.fetches
    (fst (Population._populate Sample.plural_s Sample.id_toString
            Sample.populators 1 Sample.user_populator Sample.carol
            Sample.populated))
  = Population.fetches Sample.populated.
Proof.
  assert (Hd : snd (Population._populate Sample.plural_s Sample.id_toString
         Sample.populators 4 Sample.user_populator Sample.carol
         Population.new_Population) = Population.Done)
    by (vm_compute; reflexivity).
  split; [exact Hd|].
  exact (proj1 (proj2 (populate_again_fetches_nothing Sample.plural_s
                         Sample.id_toString Sample.populators 4 0
                         Sample.user_populator Sample.carol
                         Population.new_Population Hd))).
Defined.

Example flatten_populated :
  Population_flatten Sample.populated !! "users"
  = Some [Sample.user_of (JStr "u1"); Sample.user_of (JStr "u3")].
Proof. vm_compute. reflexivity. Qed.

Lemma last_modified_of_document_witness :
  snd (run Sample.rt Sample.db Sample.self aGet no_hooks
         Sample.get_alice_since)
  = Failed (HttpError 304 "Not Changed") /\
  headers_set (fst (run Sample.rt Sample.db Sample.self aGet no_hooks
                      Sample.get_alice_since))
  = [("Last-Modified", "Thu, 01 Jan 1970 00:00:10 GMT")].
Proof.
  split; [vm_compute; reflexivity|].
  refine (last_modified_of_document Sample.rt Sample.db Sample.self aGet
            no_hooks Sample.get_alice_since
            (FindOne (JObj [("_id", JStr "a1")]) (JObj [])) Sample.alice
            _ _ _ _).
  - right. left. reflexivity.
  - vm_compute. left. reflexivity.
  - reflexivity.
  - reflexivity.
Defined.

Lemma headers_need_a_result_witness :
  headers_set (fst (run Sample.rt Sample.db Sample.self aGet no_hooks
                      Sample.get_alice)) <> [] /\
  exists c,
    In c (db_calls (fst (run Sample.rt Sample.db Sample.self aGet no_hooks
                           Sample.get_alice))) /\
    db_unsuccessful Sample.db c = false.
Proof.
  assert (Hh : headers_set (fst (run Sample.rt Sample.db Sample.self aGet
                                   no_hooks Sample.get_alice)) <> [])
    by (vm_compute; discriminate).
  split; [exact Hh|].
  exact (proj2 (proj2 (headers_need_a_result Sample.rt Sample.db Sample.self
                         aGet no_hooks Sample.get_alice Hh))).
Defined.


Lemma delete_answers_true_witness :
  snd (ResourceController.delete Sample.db Sample.self no_hooks
         Sample.get_alice)
  = Responded 200 (DBool true) /\
  exists filter doc,
    db_calls (fst (ResourceController.delete Sample.db Sample.self no_hooks
                     Sample.get_alice)) = [FindOneAndRemove filter] /\
    Model_findOneAndRemove Sample.db filter = (None, Some doc).
Proof.
  assert (Hr : snd (ResourceController.delete Sample.db Sample.self no_hooks
                      Sample.get_alice) = Responded 200 (DBool true))
    by (vm_compute; reflexivity).
  split; [exact Hr|].
  exact (proj2 (proj2 (delete_answers_true Sample.db Sample.self no_hooks
                         Sample.get_alice 200 (DBool true) Hr))).
Defined.

Lemma legacy_getAll_pages_witness :
  In (Find (JObj [("name", JStr "alice")]) (JObj [("__v", JNum 0)])
        (JObj [("skip", JNum 5); ("limit", JNum 10)]))
     (db_calls (fst (Legacy.getAll Sample.rt Sample.db Sample.self
                       Legacy.no_hooks Sample.list_page))) /\
  prop (JObj [("skip", JNum 5); ("limit", JNum 10)]) "limit" = JNum 10.
Proof.
  assert (Hc : In (Find (JObj [("name", JStr "alice")])
                     (JObj [("__v", JNum 0)])
                     (JObj [("skip", JNum 5); ("limit", JNum 10)]))
     (db_calls (fst (Legacy.getAll Sample.rt Sample.db Sample.self
                       Legacy.no_hooks Sample.list_page))))
    by (vm_compute; left; reflexivity).
  split; [exact Hc|].
  refine (legacy_getAll_pages Sample.rt Sample.db Sample.self Legacy.no_hooks
            Sample.list_page _ _ _ "limit" Hc _ _).
  - right. left. reflexivity.
  - reflexivity.
Defined.

Lemma getFirst_filter_witness :
  In (Find (JObj [("name", JStr "alice")]) (JObj [("__v", JNum 0)])
        (JObj [("limit", JNum 1)]))
     (db_calls (effects (LegacyGetFirst.getFirst_execute Sample.db Sample.self
                           Legacy.no_hooks Sample.list_page))) /\
  (toBoolean (obj_get "options" (query Sample.list_page)) = true ->
   JObj [("name", JStr "alice")]
   = JObj (obj_delete "options" (query Sample.list_page))).
Proof.
  assert (Hc : In (Find (JObj [("name", JStr "alice")])
                     (JObj [("__v", JNum 0)]) (JObj [("limit", JNum 1)]))
     (db_calls (effects (LegacyGetFirst.getFirst_execute Sample.db
                           Sample.self Legacy.no_hooks Sample.list_page))))
    by (vm_compute; left; reflexivity).
  split; [exact Hc|].
  exact (proj1 (proj2 (proj2 (getFirst_filter Sample.db Sample.self
                                Legacy.no_hooks Sample.list_page _ _ _ Hc)))).
Defined.

Lemma getFirst_nothing_found_witness :
  In (Find (JObj []) (JObj [("__v", JNum 0)]) (JObj [("limit", JNum 1)]))
     (db_calls (effects (LegacyGetFirst.getFirst_execute Sample.empty_db
                           Sample.self Legacy.no_hooks Sample.get_nobody))) /\
  snd (LegacyGetFirst.getFirst_execute Sample.empty_db Sample.self
         Legacy.no_hooks Sample.get_nobody)
  = inr ("user", None).
Proof.
  assert (Hc : In (Find (JObj []) (JObj [("__v", JNum 0)])
                     (JObj [("limit", JNum 1)]))
     (db_calls (effects (LegacyGetFirst.getFirst_execute Sample.empty_db
                           Sample.self Legacy.no_hooks Sample.get_nobody))))
    by (vm_compute; left; reflexivity).
  split; [exact Hc|].
  exact (proj1 (getFirst_nothing_found Sample.empty_db Sample.self
                  Legacy.no_hooks Sample.get_nobody _ _ _ Hc)
           eq_refl [] eq_refl).
Defined.

Lemma getAll_filter_is_the_query_witness :
  prop (JObj [("name", JStr "alice")]) "options" = JUndefined /\
  prop (JObj [("name", JStr "alice")]) "name"
  = obj_get "name" (query Sample.list_page).
Proof.
  assert (Hc : In (Find (JObj [("name", JStr "alice")])
                     (JObj [("__v", JNum 0)])
                     (JObj [("skip", JNum 5); ("limit", JNum 10)]))
     (db_calls (fst (Legacy.getAll Sample.rt Sample.db Sample.self
                       Legacy.no_hooks Sample.list_page))))
    by (vm_compute; left; reflexivity).
  destruct (proj2 (getAll_filter_is_the_query Sample.rt Sample.db Sample.self
                     Sample.list_page _ _ _ "name")
              Legacy.no_hooks eq_refl eq_refl Hc) as [H1 H2].
  split; [exact H1|]. apply H2. discriminate.
Defined.

Lemma legacy_projection_hides_version_witness :
  prop (prop (JObj [("upsert", JBool false); ("new", JBool true);
                    ("fields", JObj [("__v", JNum 0)])]) "fields") "__v"
  = JNum 0.
Proof.
  refine (proj1 (proj2 (legacy_projection_hides_version Sample.rt Sample.db
                          Sample.self Sample.put_alice [])
                   Legacy.no_hooks (JObj [("_id", JStr "a1")])
                   (JObj [("$set", JObj [("name", JStr "alice")])])
                   (JObj [("upsert", JBool false); ("new", JBool true);
                          ("fields", JObj [("__v", JNum 0)])])
                   eq_refl _) eq_refl).
  vm_compute. left. reflexivity.
Defined.

Lemma populate_throws_on_a_hole_witness :
  (exists what,
     snd (Population._populate Sample.plural_s Sample.id_toString
            Sample.populators 4 Sample.user_populator Sample.dave
            Population.new_Population)
     = Population.Thrown (TypeError what)) /\
  Population.fetches
    (fst (Population._populate Sample.plural_s Sample.id_toString
            Sample.populators 4 Sample.user_populator Sample.dave
            Population.new_Population)) = [].
Proof.
  destruct (populate_throws_on_a_hole Sample.plural_s Sample.id_toString
              Sample.populators 3 "friends" Sample.friends
              [("best", Sample.best)] Sample.dave
              [JStr "u1"; JNull; JStr "u3"] Population.new_Population
              eq_refl eq_refl) as (Ht & Hf & _).
  - left. right. left. reflexivity.
  - split; [exact Ht|exact Hf].
Defined.
